(** * Glosbe Lao -> Vietnamese lookup script (enen_Oxford_longman2.js)

    A shallow embedding of [findWord] and [getDefinition] and the
    properties of the lookup pipeline.

    - JavaScript strings are sequences of UTF-16 code units ([list N]).
    - JavaScript values as returned by [response.json()] are the
      inductive [jsval].
    - An abrupt completion ([throw]) is the [Throw] case of [completion].
    - A promise is a computation over the log of the requests issued so
      far; it settles as [Fulfilled] or [Rejected]. *)

From Stdlib Require Import String Ascii.
From Stdlib Require Import List NArith Bool Lia Arith.
Import ListNotations.

Set Warnings "-register-all".

(** ** Strings as UTF-16 code units *)

Module JsString.

Definition jsstring := list N.

(** An ASCII literal of the script, as code units. *)
Definition lit (s : string) : jsstring :=
  map N_of_ascii (list_ascii_of_string s).

Fixpoint eqb (a b : jsstring) : bool :=
  match a, b with
  | [], [] => true
  | x :: a', y :: b' => N.eqb x y && eqb a' b'
  | _, _ => false
  end.

(** ToBoolean on a string: the empty string is the only falsy one. *)
Definition nonempty (s : jsstring) : bool :=
  match s with [] => false | _ :: _ => true end.

(** WhiteSpace and LineTerminator code points: what [trim] strips and
    what the regular expression class [\s] matches. *)
Definition is_white_space (c : N) : bool :=
  ((c =? 0x09) || (c =? 0x0A) || (c =? 0x0B) || (c =? 0x0C) || (c =? 0x0D)
   || (c =? 0x20) || (c =? 0xA0) || (c =? 0x1680)
   || ((0x2000 <=? c) && (c <=? 0x200A))
   || (c =? 0x2028) || (c =? 0x2029) || (c =? 0x202F) || (c =? 0x205F)
   || (c =? 0x3000) || (c =? 0xFEFF))%N.

Fixpoint trimStart (s : jsstring) : jsstring :=
  match s with
  | [] => []
  | c :: r => if is_white_space c then trimStart r else s
  end.

Definition trimEnd (s : jsstring) : jsstring := rev (trimStart (rev s)).

(** [String.prototype.trim] *)
Definition trim (s : jsstring) : jsstring := trimEnd (trimStart s).

(** [s.replace(/\s+/g, ' ')]: every maximal run of white space becomes
    one space.  [in_run] tells that the previous unit was white space. *)
Fixpoint collapse_from (in_run : bool) (s : jsstring) : jsstring :=
  match s with
  | [] => []
  | c :: r =>
      if is_white_space c
      then if in_run then collapse_from true r
           else 0x20%N :: collapse_from true r
      else c :: collapse_from false r
  end.

Definition collapse_white_space (s : jsstring) : jsstring :=
  collapse_from false s.

(** [s.substring(0, n)] *)
Definition substring0 (n : nat) (s : jsstring) : jsstring := firstn n s.

(** [xs.join(sep)] on an array of strings. *)
Fixpoint join (sep : jsstring) (xs : list jsstring) : jsstring :=
  match xs with
  | [] => []
  | [x] => x
  | x :: r => x ++ sep ++ join sep r
  end.

Definition all_white_space (s : jsstring) : bool := forallb is_white_space s.

End JsString.
Import JsString.

(** ** Errors and completions *)

Inductive JsError : Type :=
| Error (message : string)   (* [new Error(message)] thrown by the script *)
| TypeError
| URIError
| HostError (tag : nat).     (* a failure chosen by the host: network, body, parser *)

Inductive completion (A : Type) : Type :=
| Normal (a : A)
| Throw (e : JsError).
Arguments Normal {A} a.
Arguments Throw {A} e.

Definition cbind {A B : Type} (c : completion A) (k : A -> completion B)
  : completion B :=
  match c with
  | Normal a => k a
  | Throw e => Throw e
  end.

Declare Scope completion_scope.
Delimit Scope completion_scope with completion.
Notation "x <- c ;; k" := (cbind c (fun x => k))
  (at level 100, c at next level, right associativity) : completion_scope.
Open Scope completion_scope.

(** ** [encodeURIComponent] (ECMA-262, Encode with the unreserved set) *)

Module Uri.

Definition is_alpha_digit (c : N) : bool :=
  (((0x41 <=? c) && (c <=? 0x5A)) || ((0x61 <=? c) && (c <=? 0x7A))
   || ((0x30 <=? c) && (c <=? 0x39)))%N.

(** uriUnescaped: letters, digits and the marks  - _ . ! ~ * ' ( ) *)
Definition uri_unescaped (c : N) : bool :=
  (is_alpha_digit c
   || (c =? 0x2D) || (c =? 0x5F) || (c =? 0x2E) || (c =? 0x21) || (c =? 0x7E)
   || (c =? 0x2A) || (c =? 0x27) || (c =? 0x28) || (c =? 0x29))%N.

Definition is_high_surrogate (c : N) : bool := ((0xD800 <=? c) && (c <=? 0xDBFF))%N.
Definition is_low_surrogate (c : N) : bool := ((0xDC00 <=? c) && (c <=? 0xDFFF))%N.

Definition hex_digit (n : N) : N :=
  (if n <? 10 then 0x30 + n else 0x41 + (n - 10))%N.

Definition percent_octet (b : N) : jsstring :=
  [0x25%N; hex_digit (b / 16); hex_digit (b mod 16)].

Definition utf8_octets (cp : N) : list N :=
  (if cp <? 0x80 then [cp]
   else if cp <? 0x800 then [0xC0 + cp / 0x40; 0x80 + cp mod 0x40]
   else if cp <? 0x10000 then
     [0xE0 + cp / 0x1000; 0x80 + (cp / 0x40) mod 0x40; 0x80 + cp mod 0x40]
   else
     [0xF0 + cp / 0x40000; 0x80 + (cp / 0x1000) mod 0x40;
      0x80 + (cp / 0x40) mod 0x40; 0x80 + cp mod 0x40])%N.

Definition escape_code_point (cp : N) : jsstring :=
  flat_map percent_octet (utf8_octets cp).

(** A lone surrogate makes the built-in throw a URIError. *)
Fixpoint encodeURIComponent (s : jsstring) : completion jsstring :=
  match s with
  | [] => Normal []
  | c :: rest =>
      if uri_unescaped c then
        (r <- encodeURIComponent rest ;; Normal (c :: r))
      else if is_low_surrogate c then Throw URIError
      else if is_high_surrogate c then
        match rest with
        | d :: rest' =>
            if is_low_surrogate d then
              (r <- encodeURIComponent rest' ;;
               Normal (escape_code_point
                         (0x10000 + (c - 0xD800) * 0x400 + (d - 0xDC00))%N ++ r))
            else Throw URIError
        | [] => Throw URIError
        end
      else
        (r <- encodeURIComponent rest ;; Normal (escape_code_point c ++ r))
  end.

End Uri.
Import Uri.

(** ** JavaScript values *)

(** A Number is carried by its canonical rendering (the result of
    Number::toString): the script only tests numbers for truthiness and
    converts them to strings. *)
Inductive jsval : Type :=
| JUndefined
| JNull
| JBool (b : bool)
| JNum (rendering : jsstring)
| JStr (s : jsstring)
| JArr (items : list jsval)
| JObj (props : list (jsstring * jsval)).

Fixpoint lookup (k : jsstring) (props : list (jsstring * jsval)) : option jsval :=
  match props with
  | [] => None
  | (k', v) :: r => if JsString.eqb k k' then Some v else lookup k r
  end.

(** ToBoolean *)
Definition truthy (v : jsval) : bool :=
  match v with
  | JUndefined | JNull => false
  | JBool b => b
  | JNum r => negb (JsString.eqb r (lit "0")) && negb (JsString.eqb r (lit "NaN"))
  | JStr s => nonempty s
  | JArr _ | JObj _ => true
  end.

Definition is_string (v : jsval) : bool :=
  match v with JStr _ => true | _ => false end.

(** [v.k] for the data keys the script reads (tuc, examples, meanings,
    phrase, text, first, second): none of them is a built-in property of
    a string, number, boolean, array or of Object.prototype. *)
Definition get (v : jsval) (k : jsstring) : completion jsval :=
  match v with
  | JUndefined | JNull => Throw TypeError
  | JObj props =>
      match lookup k props with Some x => Normal x | None => Normal JUndefined end
  | _ => Normal JUndefined
  end.

(** ToBoolean([v.length]) for a value [v] that is not null or undefined. *)
Definition truthy_length (v : jsval) : bool :=
  match v with
  | JArr items => negb (Nat.eqb (length items) 0)
  | JStr s => nonempty s
  | JObj props =>
      match lookup (lit "length") props with Some x => truthy x | None => false end
  | _ => false
  end.

(** ToString as applied by [+] and by [Array.prototype.join].  A plain
    object renders as [[object Object]] unless it carries its own
    (never callable) [toString] property, in which case the conversion
    throws a TypeError.  An array renders as its elements joined by
    commas, null and undefined elements rendering as nothing. *)
Fixpoint to_string (v : jsval) : completion jsstring :=
  match v with
  | JUndefined => Normal (lit "undefined")
  | JNull => Normal (lit "null")
  | JBool true => Normal (lit "true")
  | JBool false => Normal (lit "false")
  | JNum r => Normal r
  | JStr s => Normal s
  | JArr items =>
      (fix elements (xs : list jsval) : completion jsstring :=
         match xs with
         | [] => Normal []
         | x :: r =>
             s <- match x with
                  | JUndefined | JNull => Normal []
                  | _ => to_string x
                  end ;;
             match r with
             | [] => Normal s
             | _ :: _ => t <- elements r ;; Normal (s ++ lit "," ++ t)
             end
         end) items
  | JObj props =>
      match lookup (lit "toString") props with
      | Some _ => Throw TypeError
      | None => Normal (lit "[object Object]")
      end
  end.

(** An element as [join] renders it. *)
Definition element_string (x : jsval) : completion jsstring :=
  match x with
  | JUndefined | JNull => Normal []
  | _ => to_string x
  end.

(** [xs.join(sep)] on an array of values. *)
Fixpoint js_join (sep : jsstring) (xs : list jsval) : completion jsstring :=
  match xs with
  | [] => Normal []
  | x :: r =>
      s <- element_string x ;;
      match r with
      | [] => Normal s
      | _ :: _ => t <- js_join sep r ;; Normal (s ++ sep ++ t)
      end
  end.

(** [xs.forEach(f)] where [f] updates an accumulator and may throw. *)
Fixpoint forEach {A S : Type} (f : S -> A -> completion S) (xs : list A) (s : S)
  : completion S :=
  match xs with
  | [] => Normal s
  | x :: r => s' <- f s x ;; forEach f r s'
  end.

(** [Array.from(new Set(xs))]: a Set keeps its elements in insertion
    order and ignores the insertion of an element it already holds. *)
Definition set_add (seen : list jsstring) (x : jsstring) : list jsstring :=
  if existsb (JsString.eqb x) seen then seen else seen ++ [x].

Definition array_from_set (xs : list jsstring) : list jsstring :=
  fold_left set_add xs [].

(** [Array.from(new Set(out)).filter(Boolean)] *)
Definition clean (out : list jsstring) : list jsstring :=
  filter nonempty (array_from_set out).

(** ** The host: network and HTML parser *)

(** What the script observes of a parsed document. *)
Record Document : Type := {
  (* [doc.querySelectorAll(sel)]: the [textContent] of every match, in
     document order *)
  querySelectorAll : jsstring -> list jsstring;
  (* [doc.querySelector(sel)]: the [content] of the first match, or
     [None] when the result is null *)
  querySelector_content : jsstring -> option jsstring;
  (* [doc.body.textContent], or [None] when [doc.body] is null *)
  body_textContent : option jsstring
}.

Record Response : Type := {
  ok : bool;
  json : completion jsval;      (* how [response.json()] settles *)
  text : completion jsstring    (* how [response.text()] settles *)
}.

Inductive FetchOutcome : Type :=
| NetworkFailure (e : JsError)
| Respond (r : Response).

Definition Trace := list jsstring.

(** The network answers a request knowing the requests made before it,
    so that a repeated request need not get the same answer. *)
Record Host : Type := {
  network : Trace -> jsstring -> FetchOutcome;
  parseFromString : jsstring -> completion Document
}.

(** ** Promises *)

Inductive Settled (A : Type) : Type :=
| Fulfilled (a : A)
| Rejected (e : JsError).
Arguments Fulfilled {A} a.
Arguments Rejected {A} e.

Definition Promise (A : Type) : Type := Trace -> Settled A * Trace.

Module PromiseOps.

Definition resolve {A : Type} (a : A) : Promise A := fun t => (Fulfilled a, t).
Definition reject {A : Type} (e : JsError) : Promise A := fun t => (Rejected e, t).

(** [p.then(f)] *)
Definition then_ {A B : Type} (p : Promise A) (f : A -> Promise B) : Promise B :=
  fun t =>
    match p t with
    | (Fulfilled a, t') => f a t'
    | (Rejected e, t') => (Rejected e, t')
    end.

(** [p.catch(h)] *)
Definition catch_ {A : Type} (p : Promise A) (h : JsError -> Promise A) : Promise A :=
  fun t =>
    match p t with
    | (Fulfilled a, t') => (Fulfilled a, t')
    | (Rejected e, t') => h e t'
    end.

(** A handler that returns a value or throws. *)
Definition settle {A : Type} (c : completion A) : Promise A :=
  match c with
  | Normal a => resolve a
  | Throw e => reject e
  end.

(** [fetch(url, { method: 'GET' })] *)
Definition fetch (host : Host) (url : jsstring) : Promise Response :=
  fun t =>
    match network host t url with
    | NetworkFailure e => (Rejected e, t ++ [url])
    | Respond r => (Fulfilled r, t ++ [url])
    end.

End PromiseOps.
Import PromiseOps.

(** ** Constants of the script *)

Definition arrow : jsstring := [0x2192%N; 0x20%N].      (* U+2192 and a space *)
Definition dash : jsstring := [0x2014%N; 0x20%N].       (* U+2014 and a space *)
Definition examples_header : jsstring := 0x0A%N :: lit "Examples:".
Definition line_break : jsstring := [0x0A%N].
Definition quote : jsstring := [0x22%N].

Definition no_word_provided : jsstring := lit "No word provided".
Definition offline_fallback : jsstring :=
  lit "No definition found (offline fallback). Try Google Translate or check internet connection.".
Definition no_result_found : jsstring := lit "No result found".
Definition error_getting_definition : jsstring := lit "Error getting definition".

Definition key_tuc := lit "tuc".
Definition key_meanings := lit "meanings".
Definition key_phrase := lit "phrase".
Definition key_text := lit "text".
Definition key_examples := lit "examples".
Definition key_first := lit "first".
Definition key_second := lit "second".

Definition apiUrl (encoded : jsstring) : jsstring :=
  lit "https://glosbe.com/gapi/translate?from=lo&dest=vi&format=json&phrase="
  ++ encoded ++ lit "&pretty=true".

Definition pageUrl (encoded : jsstring) : jsstring :=
  lit "https://glosbe.com/lo/vi/" ++ encoded.

Definition meaningSelectors : list jsstring :=
  [ lit ".meaning"; lit ".translation .text"; lit ".translation";
    lit ".phrase .translation"; lit ".tu-meaning";
    lit ".translation-block .translation" ].

Definition exampleSelectors : list jsstring :=
  [ lit ".example .text"; lit ".examples .example"; lit ".example";
    lit ".example-sentence" ].

Definition metaSelector : jsstring :=
  lit "meta[name=" ++ quote ++ lit "description" ++ quote
  ++ lit "], meta[property=" ++ quote ++ lit "og:description" ++ quote ++ lit "]".

(** ** Step 1: lines of the structured response (source lines 24-48) *)

Definition push_arrow (out : list jsstring) (v : jsval) : completion (list jsstring) :=
  s <- to_string v ;; Normal (out ++ [arrow ++ s]).

Definition on_meaning (out : list jsstring) (m : jsval) : completion (list jsstring) :=
  t <- get m key_text ;;
  if truthy t then push_arrow out t else Normal out.

Definition on_item (out : list jsstring) (item : jsval) : completion (list jsstring) :=
  meanings <- get item key_meanings ;;
  if truthy meanings && truthy_length meanings then
    match meanings with
    | JArr ms => forEach on_meaning ms out
    | _ => Throw TypeError            (* forEach is not a function *)
    end
  else
    phrase <- get item key_phrase ;;
    if truthy phrase then
      t <- get phrase key_text ;;
      if truthy t then push_arrow out t else Normal out
    else Normal out.

(** The body of the loop over the examples, up to [s.join(" ")]. *)
Definition example_line (ex : jsval) : completion jsstring :=
  first <- get ex key_first ;;
  let s := if truthy first then [first] else [] in
  second <- get ex key_second ;;
  s' <- (if truthy second
         then t <- to_string second ;; Normal (s ++ [JStr (dash ++ t)])
         else Normal s) ;;
  js_join (lit " ") s'.

Definition on_example (out : list jsstring) (ex : jsval) : completion (list jsstring) :=
  line <- example_line ex ;;
  Normal (out ++ [line]).

Definition tuc_lines (json : jsval) : completion (list jsstring) :=
  if truthy json then
    tuc <- get json key_tuc ;;
    match tuc with
    | JArr items =>
        if Nat.ltb 0 (length items) then forEach on_item items [] else Normal []
    | _ => Normal []
    end
  else Normal [].

Definition example_lines (json : jsval) (out : list jsstring)
  : completion (list jsstring) :=
  if truthy json then
    exs <- get json key_examples ;;
    match exs with
    | JArr items =>
        if negb (Nat.eqb (length items) 0)
        then forEach on_example (firstn 6 items) (out ++ [examples_header])
        else Normal out
    | _ => Normal out
    end
  else Normal out.

Definition api_lines (json : jsval) : completion (list jsstring) :=
  out <- tuc_lines json ;;
  example_lines json out.

(** The handler of source lines 23-58. *)
Definition on_api_json (json : jsval) : completion (list jsstring) :=
  out <- api_lines json ;;
  if Nat.eqb (length out) 0
  then Throw (Error "Empty API result, fallback to HTML")
  else Normal (clean out).

(** ** Step 2: lines scraped from the page (source lines 68-136) *)

(** The two selector loops: trimmed, non-empty text of every match of
    every selector, selector after selector. *)
Definition collect (doc : Document) (selectors : list jsstring) : list jsstring :=
  flat_map (fun sel => filter nonempty (map trim (querySelectorAll doc sel)))
           selectors.

Definition with_meta_description (doc : Document) (results : list jsstring)
  : list jsstring :=
  match results with
  | [] =>
      match querySelector_content doc metaSelector with
      | Some content => if nonempty content then [trim content] else []
      | None => []
      end
  | _ :: _ => results
  end.

Definition bodyText (doc : Document) : jsstring :=
  match body_textContent doc with
  | Some t => if nonempty t then collapse_white_space (trim t) else []
  | None => []
  end.

Definition scrape_lines (doc : Document) : list jsstring :=
  let results := with_meta_description doc (collect doc meaningSelectors) in
  let examples := collect doc exampleSelectors in
  let out :=
    match results with
    | _ :: _ => firstn 12 results
    | [] => if nonempty (bodyText doc) then [substring0 800 (bodyText doc)] else []
    end in
  let out :=
    match examples with
    | _ :: _ => out ++ [examples_header] ++ firstn 8 examples
    | [] => out
    end in
  clean out.

(** ** The pipeline *)

Section Pipeline.

Variable host : Host.

(** Source lines 17-58: the request to the JSON endpoint and its two
    handlers. *)
Definition structured_lookup (encoded : jsstring) : Promise (list jsstring) :=
  then_ (then_ (fetch host (apiUrl encoded))
               (fun response =>
                  if negb (ok response) then reject (Error "API not OK")
                  else catch_ (settle (json response))
                              (fun _ => reject (Error "Not JSON"))))
        (fun j => settle (on_api_json j)).

(** Source lines 62-137: the request for the page and its two handlers. *)
Definition scrape (encoded : jsstring) : Promise (list jsstring) :=
  then_ (then_ (fetch host (pageUrl encoded))
               (fun resp =>
                  if negb (ok resp) then reject (Error "Page fetch failed")
                  else settle (text resp)))
        (fun html => settle (doc <- parseFromString host html ;;
                             Normal (scrape_lines doc))).

(** Source lines 59-142: the handler of the outer [catch]. *)
Definition fallback (phrase : jsstring) : Promise (list jsstring) :=
  match encodeURIComponent phrase with
  | Throw e => reject e
  | Normal encoded =>
      catch_ (scrape encoded) (fun _ => resolve [offline_fallback])
  end.

(** [findWord(word)]: throws, or returns a promise. *)
Definition findWord (word : jsval) : completion (Promise (list jsstring)) :=
  match word with
  | JStr w =>
      if negb (truthy word) then Normal (resolve [no_word_provided])
      else
        let phrase := trim w in
        encoded <- encodeURIComponent phrase ;;
        Normal (catch_ (structured_lookup encoded) (fun _ => fallback phrase))
  | _ => Normal (resolve [no_word_provided])
  end.

(** [getDefinition(word)].  An exception thrown by the executor of
    [new Promise] rejects the promise under construction. *)
Definition getDefinition (word : jsval) : Promise jsstring :=
  match findWord word with
  | Throw e => reject e
  | Normal p =>
      catch_ (then_ p (fun results =>
                         match results with
                         | [] => resolve no_result_found
                         | _ :: _ => resolve (join (line_break ++ line_break) results)
                         end))
             (fun _ => resolve error_getting_definition)
  end.

(** The last statement of the script: what is handed to [sendResponse]. *)
Definition main (selectedText : jsval) : jsstring * Trace :=
  match getDefinition selectedText [] with
  | (Fulfilled definition, t) => (definition, t)
  | (Rejected _, t) => (lit "Error", t)
  end.

(** The lines [findWord] resolves with and the requests it made. *)
Definition run_findWord (word : jsval) : completion (Settled (list jsstring) * Trace) :=
  p <- findWord word ;; Normal (p []).

End Pipeline.

(** ** Vocabulary of the statements *)

Definition jsstring_eq_dec : forall a b : jsstring, {a = b} + {a <> b} :=
  list_eq_dec N.eq_dec.

(** The JSON endpoint answers the first request with status ok and a
    body that decodes to [j]. *)
Definition api_answers (host : Host) (encoded : jsstring) (j : jsval) : Prop :=
  exists r, network host [] (apiUrl encoded) = Respond r
            /\ ok r = true /\ json r = Normal j.

(** The page endpoint answers the request made after [t] with status ok
    and markup that parses to [doc]. *)
Definition page_answers (host : Host) (t : Trace) (encoded : jsstring)
           (doc : Document) : Prop :=
  exists r html, network host t (pageUrl encoded) = Respond r
                 /\ ok r = true /\ text r = Normal html
                 /\ parseFromString host html = Normal doc.

(** The ways Step 1 fails. *)
Inductive structured_fails (host : Host) (encoded : jsstring) : Prop :=
| api_network_error e :
    network host [] (apiUrl encoded) = NetworkFailure e ->
    structured_fails host encoded
| api_not_ok r :
    network host [] (apiUrl encoded) = Respond r -> ok r = false ->
    structured_fails host encoded
| api_not_json r e :
    network host [] (apiUrl encoded) = Respond r -> ok r = true ->
    json r = Throw e ->
    structured_fails host encoded
| api_handler_throws r j e :
    network host [] (apiUrl encoded) = Respond r -> ok r = true ->
    json r = Normal j -> on_api_json j = Throw e ->
    structured_fails host encoded.

(** The ways Step 2 fails, after the requests [t]. *)
Inductive scrape_fails (host : Host) (t : Trace) (encoded : jsstring) : Prop :=
| page_network_error e :
    network host t (pageUrl encoded) = NetworkFailure e ->
    scrape_fails host t encoded
| page_not_ok r :
    network host t (pageUrl encoded) = Respond r -> ok r = false ->
    scrape_fails host t encoded
| page_body_error r e :
    network host t (pageUrl encoded) = Respond r -> ok r = true ->
    text r = Throw e ->
    scrape_fails host t encoded
| page_parse_error r html e :
    network host t (pageUrl encoded) = Respond r -> ok r = true ->
    text r = Normal html -> parseFromString host html = Throw e ->
    scrape_fails host t encoded.

(** How a promise settles when its handler completes with [c]. *)
Definition settled {A : Type} (c : completion A) : Settled A :=
  match c with
  | Normal a => Fulfilled a
  | Throw e => Rejected e
  end.

(** A line that starts with the arrow. *)
Definition arrow_line (l : jsstring) : Prop := exists s, l = arrow ++ s.

(** A field that is absent, is not an array, or is an empty array. *)
Definition no_entries (v : jsval) : bool :=
  match v with
  | JArr (_ :: _) => false
  | _ => true
  end.

(** The text of a field of the response as the script uses it: nothing
    when the field is falsy, its string conversion otherwise. *)
Definition field_text (v : jsval) : completion (option jsstring) :=
  if truthy v then s <- to_string v ;; Normal (Some s) else Normal None.

Definition has_text (v : jsval) (k : jsstring) (o : option jsstring) : Prop :=
  exists x, get v k = Normal x /\ field_text x = Normal o.

(** An example as the specification words it: the source text,
    optionally followed by the dash and the target text, joined by a
    single space. *)
Definition rendered_example (source target : option jsstring) : jsstring :=
  match source, target with
  | Some s, Some t => s ++ lit " " ++ dash ++ t
  | Some s, None => s
  | None, Some t => dash ++ t
  | None, None => []
  end.

(** A translation unit emits a line: one per meaning with a text, or
    one for its phrase when it has no meanings. *)
Inductive emits (item : jsval) (line : jsstring) : Prop :=
| emits_meaning ms m t s :
    get item key_meanings = Normal (JArr ms) -> In m ms ->
    get m key_text = Normal t -> truthy t = true -> to_string t = Normal s ->
    line = arrow ++ s ->
    emits item line
| emits_phrase mv p t s :
    get item key_meanings = Normal mv ->
    truthy mv && truthy_length mv = false ->
    get item key_phrase = Normal p -> truthy p = true ->
    get p key_text = Normal t -> truthy t = true -> to_string t = Normal s ->
    line = arrow ++ s ->
    emits item line.

(** The shape of the response the JSON endpoint documents: an object
    with an optional array [tuc] of units, each with an optional array
    [meanings] of objects with an optional string [text] and an optional
    object [phrase] with an optional string [text], and an optional
    array [examples] of objects with optional strings [first] and
    [second]. *)
Module Shape.

Definition optional_string (o : option jsval) : bool :=
  match o with
  | None => true
  | Some (JStr _) => true
  | Some _ => false
  end.

Definition meaning (m : jsval) : bool :=
  match m with
  | JObj props => optional_string (lookup key_text props)
  | _ => false
  end.

Definition unit_ (item : jsval) : bool :=
  match item with
  | JObj props =>
      match lookup key_meanings props with
      | None => true
      | Some (JArr ms) => forallb meaning ms
      | Some _ => false
      end
      && match lookup key_phrase props with
         | None => true
         | Some (JObj q) => optional_string (lookup key_text q)
         | Some _ => false
         end
  | _ => false
  end.

Definition example (ex : jsval) : bool :=
  match ex with
  | JObj props =>
      optional_string (lookup key_first props)
      && optional_string (lookup key_second props)
  | _ => false
  end.

Definition response (j : jsval) : bool :=
  match j with
  | JObj props =>
      match lookup key_tuc props with
      | None => true
      | Some (JArr items) => forallb unit_ items
      | Some _ => false
      end
      && match lookup key_examples props with
         | None => true
         | Some (JArr exs) => forallb example exs
         | Some _ => false
         end
  | _ => false
  end.

End Shape.

(** A code unit that cannot end a path segment or a query parameter:
    an unreserved character or the percent sign. *)
Definition uri_safe (c : N) : bool := uri_unescaped c || (c =? 0x25)%N.


(** A string that does not begin with white space. *)
Definition starts_with_text (l : jsstring) : Prop :=
  match l with
  | [] => True
  | c :: _ => is_white_space c = false
  end.

(** Every white-space unit is a space and follows a unit that is not
    white space; [after_space] tells that the unit before the string is
    white space (or that the string is at the start of a line). *)
Fixpoint single_spaced (after_space : bool) (s : jsstring) : bool :=
  match s with
  | [] => true
  | c :: r =>
      if is_white_space c
      then negb after_space && (c =? 0x20)%N && single_spaced true r
      else single_spaced false r
  end.

(** A unit of [tuc] on which the loop of source lines 27-35 throws. *)
Inductive malformed_unit (item : jsval) : Prop :=
| unit_is_null :
    item = JNull -> malformed_unit item
| meanings_not_an_array mv :
    get item key_meanings = Normal mv ->
    truthy mv && truthy_length mv = true ->
    (forall ms, mv <> JArr ms) ->
    malformed_unit item
| meaning_is_null ms :
    get item key_meanings = Normal (JArr ms) -> In JNull ms ->
    malformed_unit item.

(** ** Sample hosts, responses and documents *)

Module Samples.

Definition unreachable : JsError := HostError 0.

Definition json_response (j : jsval) : Response :=
  {| ok := true; json := Normal j; text := Throw unreachable |}.

Definition page_response (html : jsstring) : Response :=
  {| ok := true; json := Throw unreachable; text := Normal html |}.

(** Every request ends in a network error. *)
Definition offline : Host :=
  {| network := fun _ _ => NetworkFailure unreachable;
     parseFromString := fun _ => Throw unreachable |}.

(** The JSON endpoint answers [j]; the page endpoint is down. *)
Definition api_only (j : jsval) : Host :=
  {| network := fun t _ =>
                  match t with
                  | [] => Respond (json_response j)
                  | _ :: _ => NetworkFailure unreachable
                  end;
     parseFromString := fun _ => Throw unreachable |}.

(** The JSON endpoint is down; the page endpoint serves a page that
    parses to [doc]. *)
Definition page_only (doc : Document) : Host :=
  {| network := fun t _ =>
                  match t with
                  | [] => NetworkFailure unreachable
                  | _ :: _ => Respond (page_response (lit "<html>"))
                  end;
     parseFromString := fun _ => Normal doc |}.

Definition text_A : jsval := JStr (lit "A").

(** [{tuc: [{meanings: [{text: "A"}]}]}] *)
Definition one_meaning : jsval :=
  JObj [(key_tuc, JArr [JObj [(key_meanings, JArr [JObj [(key_text, text_A)]])]])].

(** [{tuc: [{meanings: [{text: "A"}]}, {meanings: [{text: "A"}]}]}] *)
Definition duplicate_meaning : jsval :=
  JObj [(key_tuc, JArr [JObj [(key_meanings, JArr [JObj [(key_text, text_A)]])];
                        JObj [(key_meanings, JArr [JObj [(key_text, text_A)]])]])].

(** [{tuc: [{meanings: [{text: ""}]}]}] *)
Definition empty_meaning_text : jsval :=
  JObj [(key_tuc, JArr [JObj [(key_meanings, JArr [JObj [(key_text, JStr [])]])]])].


Definition cat_meo : jsval :=
  JObj [(key_first, JStr (lit "cat")); (key_second, JStr (lit "meo"))].

(** [{examples: [{first: "cat", second: "meo"}]}] *)
Definition one_example : jsval :=
  JObj [(key_examples, JArr [cat_meo])].

(** A page with no element and an empty body. *)
Definition blank_page : Document :=
  {| querySelectorAll := fun _ => [];
     querySelector_content := fun _ => None;
     body_textContent := Some [] |}.

(** A page whose body reads [" hello   world "], with no element the
    selectors know. *)
Definition plain_page : Document :=
  {| querySelectorAll := fun _ => [];
     querySelector_content := fun _ => None;
     body_textContent := Some (lit " hello   world ") |}.

(** A page whose only content is a description tag. *)
Definition described_page (content : jsstring) (body : jsstring) : Document :=
  {| querySelectorAll := fun _ => [];
     querySelector_content := fun _ => Some content;
     body_textContent := Some body |}.

(** A page with one node of class [meaning] that reads "word", a
    description tag and a body text. *)
Definition meaning_page (content : jsstring) (body : jsstring) : Document :=
  {| querySelectorAll :=
       fun sel => if JsString.eqb sel (lit ".meaning") then [lit "word"] else [];
     querySelector_content := fun _ => Some content;
     body_textContent := Some body |}.

(** [{tuc: [{meanings: [{text: "A"}]}, null]}] *)
Definition null_unit : jsval :=
  JObj [(key_tuc, JArr [JObj [(key_meanings, JArr [JObj [(key_text, text_A)]])];
                        JNull])].

(** [{examples: [null]}] *)
Definition null_example : jsval :=
  JObj [(key_examples, JArr [JNull])].

(** [{second: "meo"}] *)
Definition meo_only : jsval := JObj [(key_second, JStr (lit "meo"))].

(** [{examples: [{second: "meo"}, {}, {first: "cat"}]}] *)
Definition malformed_examples : jsval :=
  JObj [(key_examples,
         JArr [meo_only; JObj []; JObj [(key_first, JStr (lit "cat"))]])].

(** A string made of a single space. *)
Definition one_space : jsstring := [0x20%N].

(** A string made of one high surrogate with no low surrogate after it. *)
Definition lone_surrogate : jsstring := [0xD800%N].

End Samples.

(** * Properties *)

(** ** Strings *)

Lemma eqb_eq (a b : jsstring) : JsString.eqb a b = true <-> a = b.
Proof.
  revert b; induction a as [|x a IH]; intros [|y b]; simpl;
    try (split; [discriminate | discriminate]); try tauto.
  rewrite andb_true_iff, N.eqb_eq, IH.
  split.
  - intros [-> ->]; reflexivity.
  - intros E; injection E; auto.
Qed.

Lemma eqb_refl (a : jsstring) : JsString.eqb a a = true.
Proof. apply eqb_eq; reflexivity. Qed.

Lemma existsb_eqb_In (x : jsstring) (l : list jsstring) :
  existsb (JsString.eqb x) l = true <-> In x l.
Proof.
  rewrite existsb_exists. split.
  - intros (y & Hy & E). apply eqb_eq in E. subst; assumption.
  - intros H. exists x. split; [assumption | apply eqb_refl].
Qed.

Lemma nonempty_true (s : jsstring) : nonempty s = true <-> s <> [].
Proof. destruct s; simpl; split; congruence. Qed.

(** ** The Set of lines *)

Section SetOfLines.

Lemma set_add_cases (seen : list jsstring) (x : jsstring) :
  (In x seen /\ set_add seen x = seen)
  \/ (~ In x seen /\ set_add seen x = seen ++ [x]).
Proof.
  unfold set_add. destruct (existsb (JsString.eqb x) seen) eqn:E.
  - left. split; [apply existsb_eqb_In; assumption | reflexivity].
  - right. split; [| reflexivity].
    intros H. apply existsb_eqb_In in H. congruence.
Qed.

(** Inserting [xs] into a Set that holds [seen] appends, in order, the
    first occurrence of every element of [xs] that [seen] lacks. *)
Lemma fold_set_add (xs seen : list jsstring) :
  exists rest,
    fold_left set_add xs seen = seen ++ rest
    /\ NoDup rest
    /\ (forall y, In y rest -> In y xs /\ ~ In y seen)
    /\ (forall y, In y xs -> In y seen \/ In y rest).
Proof.
  revert seen; induction xs as [|x r IH]; intros seen; simpl.
  - exists []. rewrite app_nil_r. repeat split; try constructor; simpl; tauto.
  - destruct (set_add_cases seen x) as [[Hin ->] | [Hnot ->]].
    + destruct (IH seen) as (rest & E & ND & Hsub & Hall).
      exists rest. repeat split; auto.
      * right. apply Hsub; assumption.
      * apply Hsub; assumption.
      * intros y [<- | Hy]; auto.
    + destruct (IH (seen ++ [x])) as (rest & E & ND & Hsub & Hall).
      exists (x :: rest). rewrite E, <- app_assoc. simpl.
      repeat split.
      * constructor; [| assumption].
        intros Hx. apply Hsub in Hx. destruct Hx as [_ Hx].
        apply Hx, in_or_app. right; left; reflexivity.
      * destruct H as [<- | Hy]; [left; reflexivity |].
        right. apply Hsub; assumption.
      * destruct H as [<- | Hy]; [assumption |].
        apply Hsub in Hy. destruct Hy as [_ Hy].
        intros Hs. apply Hy, in_or_app. left; assumption.
      * intros y [<- | Hy]; [right; left; reflexivity |].
        destruct (Hall y Hy) as [Hs | Hr]; [| right; right; assumption].
        apply in_app_or in Hs.
        destruct Hs as [Hs | [<- | []]]; [left; assumption | right; left; reflexivity].
Qed.

Lemma array_from_set_NoDup (xs : list jsstring) : NoDup (array_from_set xs).
Proof.
  unfold array_from_set. destruct (fold_set_add xs []) as (rest & -> & ND & _).
  assumption.
Qed.

Lemma array_from_set_In (xs : list jsstring) (x : jsstring) :
  In x (array_from_set xs) <-> In x xs.
Proof.
  unfold array_from_set.
  destruct (fold_set_add xs []) as (rest & -> & _ & Hsub & Hall). simpl.
  split.
  - intros H. apply Hsub; assumption.
  - intros H. destruct (Hall x H) as [[] | ?]; assumption.
Qed.

(** The first occurrence of [x] keeps its place: what comes before it in
    the Set is the Set of what came before it. *)
Lemma array_from_set_first (l1 l2 : list jsstring) (x : jsstring) :
  ~ In x l1 ->
  exists r2, array_from_set (l1 ++ x :: l2) = array_from_set l1 ++ x :: r2
             /\ (forall y, In y r2 -> In y l2).
Proof.
  intros Hx.
  assert (array_from_set (l1 ++ x :: l2)
          = fold_left set_add l2 (set_add (array_from_set l1) x)) as ->.
  { unfold array_from_set. rewrite fold_left_app. reflexivity. }
  destruct (set_add_cases (array_from_set l1) x) as [[Hin _] | [_ ->]].
  - exfalso. apply Hx. apply (proj1 (array_from_set_In l1 x)). assumption.
  - destruct (fold_set_add l2 (array_from_set l1 ++ [x]))
      as (rest & -> & _ & Hsub & _).
    exists rest. rewrite <- app_assoc. split; [reflexivity |].
    intros y Hy. apply Hsub; assumption.
Qed.

Lemma clean_NoDup (out : list jsstring) : NoDup (clean out).
Proof. apply NoDup_filter, array_from_set_NoDup. Qed.

Lemma clean_In (out : list jsstring) (x : jsstring) :
  In x (clean out) <-> In x out /\ x <> [].
Proof.
  unfold clean. rewrite filter_In, array_from_set_In, nonempty_true. tauto.
Qed.

Lemma clean_no_empty (out : list jsstring) : ~ In [] (clean out).
Proof. intros H. apply clean_In in H. destruct H as [_ H]. congruence. Qed.

Lemma clean_first (l1 l2 : list jsstring) (x : jsstring) :
  ~ In x l1 -> x <> [] ->
  exists r2, clean (l1 ++ x :: l2) = clean l1 ++ x :: r2
             /\ (forall y, In y r2 -> In y l2 /\ y <> [])
             /\ length r2 <= length l2.
Proof.
  intros Hx Hne.
  destruct (array_from_set_first l1 l2 x Hx) as (r2 & E & Hsub).
  exists (filter nonempty r2). unfold clean. rewrite E, filter_app. simpl.
  apply nonempty_true in Hne. rewrite Hne. split; [reflexivity |].
  split.
  - intros y Hy. apply filter_In in Hy. destruct Hy as [Hy Hn].
    split; [apply Hsub; assumption | apply nonempty_true; assumption].
  - assert (NoDup r2) as ND.
    { pose proof (array_from_set_NoDup (l1 ++ x :: l2)) as ND.
      rewrite E in ND. apply NoDup_app_remove_l in ND.
      inversion ND; assumption. }
    apply Nat.le_trans with (length r2).
    + apply filter_length_le.
    + apply NoDup_incl_length; [assumption |].
      intros y Hy. apply Hsub; assumption.
Qed.

End SetOfLines.

(** ** The two requests *)

Section Requests.

Variable host : Host.

Lemma structured_lookup_eq (encoded : jsstring) (t : Trace) :
  structured_lookup host encoded t =
  (match network host t (apiUrl encoded) with
   | NetworkFailure e => Rejected e
   | Respond r =>
       if ok r then
         match json r with
         | Normal j => settled (on_api_json j)
         | Throw _ => Rejected (Error "Not JSON")
         end
       else Rejected (Error "API not OK")
   end, t ++ [apiUrl encoded]).
Proof.
  unfold structured_lookup, then_, catch_, fetch, settle, resolve, reject.
  destruct (network host t (apiUrl encoded)) as [e | r]; [reflexivity |].
  destruct (ok r); simpl; [| reflexivity].
  destruct (json r) as [j | e]; [| reflexivity].
  destruct (on_api_json j); reflexivity.
Qed.

Lemma scrape_eq (encoded : jsstring) (t : Trace) :
  scrape host encoded t =
  (match network host t (pageUrl encoded) with
   | NetworkFailure e => Rejected e
   | Respond r =>
       if ok r then
         match text r with
         | Normal html =>
             match parseFromString host html with
             | Normal doc => Fulfilled (scrape_lines doc)
             | Throw e => Rejected e
             end
         | Throw e => Rejected e
         end
       else Rejected (Error "Page fetch failed")
   end, t ++ [pageUrl encoded]).
Proof.
  unfold scrape, then_, fetch, settle, resolve, reject.
  destruct (network host t (pageUrl encoded)) as [e | r]; [reflexivity |].
  destruct (ok r); simpl; [| reflexivity].
  destruct (text r) as [html | e]; [| reflexivity].
  destruct (parseFromString host html); reflexivity.
Qed.

Lemma structured_lookup_trace (encoded : jsstring) (t : Trace) :
  snd (structured_lookup host encoded t) = t ++ [apiUrl encoded].
Proof. rewrite structured_lookup_eq. reflexivity. Qed.

(** The handler of the outer [catch] always fulfils, after exactly one
    request for the page. *)
Lemma fallback_eq (phrase encoded : jsstring) (t : Trace) :
  encodeURIComponent phrase = Normal encoded ->
  fallback host phrase t =
  (Fulfilled match fst (scrape host encoded t) with
             | Fulfilled lines => lines
             | Rejected _ => [offline_fallback]
             end, t ++ [pageUrl encoded]).
Proof.
  intros E. unfold fallback. rewrite E. unfold catch_, resolve.
  rewrite scrape_eq. simpl.
  destruct (network host t (pageUrl encoded)) as [e | r]; [reflexivity |].
  destruct (ok r); [| reflexivity].
  destruct (text r) as [html | e]; [| reflexivity].
  destruct (parseFromString host html); reflexivity.
Qed.

(** [findWord] on a string the guard lets through. *)
Lemma findWord_eq (w encoded : jsstring) :
  nonempty w = true ->
  encodeURIComponent (trim w) = Normal encoded ->
  run_findWord host (JStr w) =
  Normal match structured_lookup host encoded [] with
         | (Fulfilled lines, t) => (Fulfilled lines, t)
         | (Rejected _, t) => fallback host (trim w) t
         end.
Proof.
  intros Hw E. unfold run_findWord, findWord. simpl. rewrite Hw, E. simpl.
  unfold catch_. destruct (structured_lookup host encoded []) as [[lines | e] t];
    reflexivity.
Qed.

(** The guard of [findWord]. *)
Lemma findWord_guard (word : jsval) :
  negb (truthy word) || negb (is_string word) = true ->
  run_findWord host word = Normal (Fulfilled [no_word_provided], []).
Proof.
  destruct word as [| | b | r | s | items | props]; try reflexivity.
  simpl. rewrite orb_false_r. unfold run_findWord, findWord. simpl.
  intros ->. reflexivity.
Qed.

(** Whatever the host does, the promise of [findWord] fulfils. *)
Lemma findWord_fulfils (word : jsval) (p : Promise (list jsstring)) :
  findWord host word = Normal p ->
  exists lines t, p [] = (Fulfilled lines, t).
Proof.
  intros H.
  assert (run_findWord host word = Normal (p [])) as R.
  { unfold run_findWord. rewrite H. reflexivity. }
  destruct (negb (truthy word) || negb (is_string word)) eqn:G.
  - rewrite findWord_guard in R by assumption.
    injection R as <-. eauto.
  - destruct word as [| | b | r | w | items | props];
      simpl in G; rewrite ?orb_true_r in G; try discriminate.
    destruct (nonempty w) eqn:Hw; [clear G | discriminate].
    unfold findWord in H. simpl in H. rewrite Hw in H. simpl in H.
    destruct (encodeURIComponent (trim w)) as [encoded |] eqn:E; [| discriminate].
    rewrite (findWord_eq w encoded Hw E) in R. injection R as <-.
    destruct (structured_lookup host encoded []) as [[lines | e] t].
    + eauto.
    + rewrite (fallback_eq _ _ _ E). eauto.
Qed.

End Requests.

(** ** Input validation *)

(** C1, as amended: for every input that is the empty string or is not a
    string, [findWord] resolves with the single line "No word provided"
    and issues no request, neither to the JSON endpoint nor for the
    page. *)
Theorem no_word_provided_without_request (host : Host) (word : jsval) :
  word = JStr [] \/ is_string word = false ->
  run_findWord host word = Normal (Fulfilled [no_word_provided], []).
Proof.
  intros [-> | H].
  - apply findWord_guard. reflexivity.
  - apply findWord_guard. rewrite H. apply orb_true_r.
Qed.

Lemma no_word_provided_without_request_witness :
  (JNull = JStr [] \/ is_string JNull = false)
  /\ run_findWord (Samples.api_only Samples.one_meaning) JNull
     = Normal (Fulfilled [no_word_provided], [])
  /\ run_findWord (Samples.api_only Samples.one_meaning) (JStr [])
     = Normal (Fulfilled [no_word_provided], []).
Proof.
  split; [| split].
  - right. reflexivity.
  - apply (no_word_provided_without_request
             (Samples.api_only Samples.one_meaning) JNull).
    right. reflexivity.
  - apply (no_word_provided_without_request
             (Samples.api_only Samples.one_meaning) (JStr [])).
    left. reflexivity.
Defined.

(** C1 as stated fails on a string made of white space only: the guard
    runs before the trimming, so both requests are issued, with an empty
    phrase. *)
Lemma white_space_only_word_is_looked_up :
  all_white_space Samples.one_space = true
  /\ run_findWord Samples.offline (JStr Samples.one_space)
     = Normal (Fulfilled [offline_fallback], [apiUrl []; pageUrl []])
  /\ run_findWord Samples.offline (JStr Samples.one_space)
     <> Normal (Fulfilled [no_word_provided], []).
Proof.
  split; [reflexivity |]. split; [reflexivity |].
  vm_compute. discriminate.
Qed.

(** ** The wrapper *)

(** Whenever [findWord] returns its promise, [getDefinition] fulfils:
    with the lines joined by two line breaks, or with "No result found"
    when there is no line. *)
Lemma getDefinition_joins (host : Host) (word : jsval) (lines : list jsstring)
      (t : Trace) :
  run_findWord host word = Normal (Fulfilled lines, t) ->
  getDefinition host word [] =
  (Fulfilled match lines with
             | [] => no_result_found
             | _ :: _ => join (line_break ++ line_break) lines
             end, t).
Proof.
  unfold run_findWord, getDefinition.
  destruct (findWord host word) as [p | e]; simpl; [| discriminate].
  intros H. injection H as H. unfold catch_, then_. rewrite H.
  destruct lines; reflexivity.
Qed.

Lemma getDefinition_fulfils_when_encodable (host : Host) (word : jsval) :
  (forall w, word = JStr w -> exists encoded,
        encodeURIComponent (trim w) = Normal encoded) ->
  exists lines t,
    run_findWord host word = Normal (Fulfilled lines, t)
    /\ getDefinition host word [] =
       (Fulfilled match lines with
                  | [] => no_result_found
                  | _ :: _ => join (line_break ++ line_break) lines
                  end, t).
Proof.
  intros Henc.
  assert (exists p, findWord host word = Normal p) as [p Hp].
  { destruct word as [| | b | r | w | items | props];
      try (eexists; reflexivity).
    destruct (Henc w eq_refl) as [encoded E].
    unfold findWord. simpl. rewrite E.
    destruct (nonempty w); simpl; eexists; reflexivity. }
  destruct (findWord_fulfils host word p Hp) as (lines & t & R).
  exists lines, t.
  assert (run_findWord host word = Normal (Fulfilled lines, t)) as Hrun.
  { unfold run_findWord. rewrite Hp. simpl. rewrite R. reflexivity. }
  split; [assumption | apply getDefinition_joins; assumption].
Qed.

(** C2 (the promise of the wrapper never rejects, every exception
    becoming "Error getting definition") fails on the code: on a
    selected text that holds a lone surrogate, [encodeURIComponent]
    throws inside [findWord] before any promise exists; the throw
    happens in the executor of the promise [getDefinition] builds, which
    is therefore rejected with the URIError instead of being fulfilled
    with "Error getting definition".  No request is made, and the script
    answers "Error". *)
Theorem getDefinition_rejects_on_lone_surrogate (host : Host) :
  encodeURIComponent (trim Samples.lone_surrogate) = Throw URIError
  /\ getDefinition host (JStr Samples.lone_surrogate) [] = (Rejected URIError, [])
  /\ main host (JStr Samples.lone_surrogate) = (lit "Error", []).
Proof. repeat split. Qed.

(** ** Failure of both steps *)

Section Failures.

Variable host : Host.

Lemma structured_fails_iff (encoded : jsstring) :
  structured_fails host encoded <->
  exists e, structured_lookup host encoded [] = (Rejected e, [apiUrl encoded]).
Proof.
  rewrite structured_lookup_eq. simpl. split.
  - intros [e H | r H Hok | r e H Hok Hj | r j e H Hok Hj He]; rewrite H;
      try rewrite Hok; try rewrite Hj; try rewrite He; simpl; eauto.
  - intros [e H]. injection H as H.
    destruct (network host [] (apiUrl encoded)) as [e' | r] eqn:N.
    + eapply api_network_error; eassumption.
    + destruct (ok r) eqn:Hok; [| eapply api_not_ok; eassumption].
      destruct (json r) as [j | e'] eqn:Hj; [| eapply api_not_json; eassumption].
      destruct (on_api_json j) as [lines | e'] eqn:He; [discriminate |].
      eapply api_handler_throws; eassumption.
Qed.

Lemma scrape_fails_iff (encoded : jsstring) (t : Trace) :
  scrape_fails host t encoded <->
  exists e, scrape host encoded t = (Rejected e, t ++ [pageUrl encoded]).
Proof.
  rewrite scrape_eq. split.
  - intros [e H | r H Hok | r e H Hok Hj | r html e H Hok Hj He]; rewrite H;
      try rewrite Hok; try rewrite Hj; try rewrite He; simpl; eauto.
  - intros [e H]. injection H as H.
    destruct (network host t (pageUrl encoded)) as [e' | r] eqn:N.
    + eapply page_network_error; eassumption.
    + destruct (ok r) eqn:Hok; [| eapply page_not_ok; eassumption].
      destruct (text r) as [html | e'] eqn:Hj; [| eapply page_body_error; eassumption].
      destruct (parseFromString host html) as [doc | e'] eqn:He; [discriminate |].
      eapply page_parse_error; eassumption.
Qed.

(** C3: when the structured lookup has failed and the scrape fails too
    (network error on the page request, status not ok, body that cannot
    be read, parser that throws), [findWord] returns normally a promise
    fulfilled with exactly the one fixed offline line. *)
Theorem offline_fallback_when_both_fail (w encoded : jsstring) :
  nonempty w = true ->
  encodeURIComponent (trim w) = Normal encoded ->
  structured_fails host encoded ->
  scrape_fails host [apiUrl encoded] encoded ->
  run_findWord host (JStr w)
  = Normal (Fulfilled [offline_fallback], [apiUrl encoded; pageUrl encoded]).
Proof.
  intros Hw E H1 H2.
  apply structured_fails_iff in H1. destruct H1 as [e1 H1].
  apply scrape_fails_iff in H2. destruct H2 as [e2 H2].
  rewrite (findWord_eq host w encoded Hw E), H1.
  rewrite (fallback_eq host _ _ _ E), H2. reflexivity.
Qed.

End Failures.

Lemma offline_fallback_when_both_fail_witness :
  nonempty (lit "a") = true
  /\ encodeURIComponent (trim (lit "a")) = Normal (lit "a")
  /\ structured_fails Samples.offline (lit "a")
  /\ scrape_fails Samples.offline [apiUrl (lit "a")] (lit "a")
  /\ run_findWord Samples.offline (JStr (lit "a"))
     = Normal (Fulfilled [offline_fallback],
               [apiUrl (lit "a"); pageUrl (lit "a")]).
Proof.
  assert (structured_fails Samples.offline (lit "a")) as H1.
  { apply api_network_error with Samples.unreachable. reflexivity. }
  assert (scrape_fails Samples.offline [apiUrl (lit "a")] (lit "a")) as H2.
  { apply page_network_error with Samples.unreachable. reflexivity. }
  split; [reflexivity |]. split; [reflexivity |].
  split; [exact H1 |]. split; [exact H2 |].
  exact (offline_fallback_when_both_fail Samples.offline (lit "a") (lit "a")
           eq_refl eq_refl H1 H2).
Defined.

(** ** Fall-through to the scrape *)

Lemma absent_or_empty_yields_no_line (j tuc exs : jsval) :
  get j key_tuc = Normal tuc -> no_entries tuc = true ->
  get j key_examples = Normal exs -> no_entries exs = true ->
  api_lines j = Normal [].
Proof.
  intros Ht Nt He Ne. unfold api_lines, tuc_lines, example_lines.
  destruct (truthy j); [| reflexivity].
  rewrite Ht. simpl.
  assert (match tuc with
          | JArr items =>
              if Nat.ltb 0 (length items) then forEach on_item items []
              else Normal []
          | _ => Normal []
          end = Normal []) as ->.
  { destruct tuc as [| | | | | [|x items] |]; try reflexivity. discriminate. }
  simpl. rewrite He. simpl.
  destruct exs as [| | | | | [|x items] |]; try reflexivity. discriminate.
Qed.



(** ** Number of requests *)

Lemma apiUrl_neq_pageUrl (a b : jsstring) : apiUrl a <> pageUrl b.
Proof.
  intros H. apply (f_equal (fun l => nth 19 l 0%N)) in H.
  cbv in H. discriminate.
Qed.

(** C9: whatever the input and whatever the network does, one call
    issues no request, or the request to the JSON endpoint alone when
    the structured lookup fulfils, or that request followed by one
    request for the page when the structured lookup rejects; no request
    is made twice. *)
Theorem at_most_two_requests (host : Host) (word : jsval) :
  let t := snd (getDefinition host word []) in
  length t <= 2
  /\ NoDup t
  /\ (t = []
      \/ (exists encoded lines,
             structured_lookup host encoded [] = (Fulfilled lines, [apiUrl encoded])
             /\ t = [apiUrl encoded])
      \/ (exists encoded e,
             structured_lookup host encoded [] = (Rejected e, [apiUrl encoded])
             /\ t = [apiUrl encoded; pageUrl encoded])).
Proof.
  assert (forall t : Trace,
             (t = []
              \/ (exists encoded lines,
                     structured_lookup host encoded []
                     = (Fulfilled lines, [apiUrl encoded])
                     /\ t = [apiUrl encoded])
              \/ (exists encoded e,
                     structured_lookup host encoded []
                     = (Rejected e, [apiUrl encoded])
                     /\ t = [apiUrl encoded; pageUrl encoded])) ->
             length t <= 2 /\ NoDup t) as Hshape.
  { intros t [-> | [(enc & l & _ & ->) | (enc & e & _ & ->)]]; simpl.
    - split; [lia | constructor].
    - split; [lia | repeat constructor; simpl; tauto].
    - split; [lia |]. repeat constructor; simpl; try tauto.
      intros [H | []]. symmetry in H. exact (apiUrl_neq_pageUrl _ _ H). }
  cbv zeta.
  assert (let t := snd (getDefinition host word []) in
          t = []
          \/ (exists encoded lines,
                 structured_lookup host encoded []
                 = (Fulfilled lines, [apiUrl encoded])
                 /\ t = [apiUrl encoded])
          \/ (exists encoded e,
                 structured_lookup host encoded []
                 = (Rejected e, [apiUrl encoded])
                 /\ t = [apiUrl encoded; pageUrl encoded])) as Hcases.
  { cbv zeta.
    destruct (negb (truthy word) || negb (is_string word)) eqn:G.
    - left. rewrite (getDefinition_joins host word [no_word_provided] []).
      + reflexivity.
      + apply findWord_guard; assumption.
    - destruct word as [| | b | r | w | items | props];
        simpl in G; rewrite ?orb_true_r in G; try discriminate.
      destruct (nonempty w) eqn:Hw; [clear G | discriminate].
      destruct (encodeURIComponent (trim w)) as [encoded | e] eqn:E.
      + pose proof (findWord_eq host w encoded Hw E) as R.
        pose proof (structured_lookup_trace host encoded []) as T.
        destruct (structured_lookup host encoded []) as [[lines | e] t] eqn:S;
          simpl in T; subst t.
        * right; left. exists encoded, lines. split; [exact S |].
          rewrite (getDefinition_joins host _ lines [apiUrl encoded] R).
          reflexivity.
        * right; right. exists encoded, e. split; [exact S |].
          rewrite (fallback_eq host _ _ _ E) in R.
          rewrite (getDefinition_joins host _ _ _ R). reflexivity.
      + left. unfold getDefinition, findWord. simpl. rewrite Hw, E. reflexivity. }
  cbv zeta in Hcases. split; [apply Hshape; assumption |].
  split; [apply Hshape; assumption | assumption].
Qed.

(** ** Lines of the structured response *)

Section Loops.

Context {A : Type}.
Variable f : list jsstring -> A -> completion (list jsstring).
Variable Q : jsstring -> Prop.

(** Every normal step of the loop body appends lines that satisfy [Q]. *)
Hypothesis f_appends :
  forall out x out', f out x = Normal out' ->
                     exists added, out' = out ++ added /\ Forall Q added.

Lemma forEach_appends (xs : list A) :
  forall out out', forEach f xs out = Normal out' ->
                   exists added, out' = out ++ added /\ Forall Q added.
Proof.
  induction xs as [|x r IH]; intros out out' H; simpl in H.
  - injection H as <-. exists []. rewrite app_nil_r. split; constructor.
  - destruct (f out x) as [mid |] eqn:Fx; simpl in H; [| discriminate].
    destruct (f_appends _ _ _ Fx) as (a1 & -> & Q1).
    destruct (IH _ _ H) as (a2 & -> & Q2).
    exists (a1 ++ a2). rewrite app_assoc. split; [reflexivity |].
    apply Forall_app; split; assumption.
Qed.

(** A line pushed while visiting one element is still there at the end. *)
Lemma forEach_keeps (xs : list A) (x : A) (line : jsstring) :
  In x xs ->
  (forall out out', f out x = Normal out' -> In line out') ->
  forall out out', forEach f xs out = Normal out' -> In line out'.
Proof.
  intros Hx Hline. induction xs as [|y r IH]; [contradiction |].
  intros out out' H. simpl in H.
  destruct (f out y) as [mid |] eqn:Fy; simpl in H; [| discriminate].
  destruct Hx as [-> | Hx].
  - destruct (forEach_appends r _ _ H) as (a & -> & _).
    apply in_or_app. left. eapply Hline; eassumption.
  - eapply IH; eassumption.
Qed.

End Loops.

Lemma push_arrow_appends (out : list jsstring) (v : jsval) (out' : list jsstring) :
  push_arrow out v = Normal out' ->
  exists s, to_string v = Normal s /\ out' = out ++ [arrow ++ s].
Proof.
  unfold push_arrow. destruct (to_string v) as [s |]; simpl; [| discriminate].
  intros H. injection H as <-. eauto.
Qed.

Lemma on_meaning_appends (out : list jsstring) (m : jsval) (out' : list jsstring) :
  on_meaning out m = Normal out' ->
  exists added, out' = out ++ added /\ Forall arrow_line added.
Proof.
  unfold on_meaning. destruct (get m key_text) as [t |]; simpl; [| discriminate].
  destruct (truthy t).
  - intros H. apply push_arrow_appends in H. destruct H as (s & _ & ->).
    exists [arrow ++ s]. split; [reflexivity |].
    constructor; [exists s; reflexivity | constructor].
  - intros H. injection H as <-. exists []. rewrite app_nil_r.
    split; constructor.
Qed.

Lemma on_item_appends (out : list jsstring) (item : jsval) (out' : list jsstring) :
  on_item out item = Normal out' ->
  exists added, out' = out ++ added /\ Forall arrow_line added.
Proof.
  unfold on_item.
  destruct (get item key_meanings) as [mv |]; simpl; [| discriminate].
  destruct (truthy mv && truthy_length mv).
  - destruct mv; try discriminate.
    apply forEach_appends. exact on_meaning_appends.
  - destruct (get item key_phrase) as [p |]; simpl; [| discriminate].
    assert (Normal out = Normal out' ->
            exists added, out' = out ++ added /\ Forall arrow_line added) as Hnone.
    { intros H. injection H as <-. exists []. rewrite app_nil_r.
      split; constructor. }
    destruct (truthy p); [| assumption].
    destruct (get p key_text) as [t |]; simpl; [| discriminate].
    destruct (truthy t); [| assumption].
    intros H. apply push_arrow_appends in H. destruct H as (s & _ & ->).
    exists [arrow ++ s]. split; [reflexivity |].
    constructor; [exists s; reflexivity | constructor].
Qed.

Lemma on_item_emits (item : jsval) (line : jsstring) :
  emits item line ->
  forall out out', on_item out item = Normal out' -> In line out'.
Proof.
  intros [ms m t s Hm Hin Ht Htr Hs -> | mv p t s Hm Hno Hp Hpt Ht Htr Hs ->]
         out out'; unfold on_item; rewrite Hm; simpl.
  - assert (Nat.eqb (length ms) 0 = false) as ->.
    { destruct ms; [contradiction | reflexivity]. }
    simpl. apply forEach_keeps with (Q := arrow_line) (x := m).
    + exact on_meaning_appends.
    + assumption.
    + intros o o'. unfold on_meaning, push_arrow. rewrite Ht. simpl.
      rewrite Htr, Hs. simpl. intros H. injection H as <-.
      apply in_or_app. right. left. reflexivity.
  - rewrite Hno, Hp. simpl. rewrite Hpt, Ht. simpl.
    rewrite Htr. unfold push_arrow. rewrite Hs. simpl.
    intros H. injection H as <-. apply in_or_app. right. left. reflexivity.
Qed.

Lemma tuc_lines_arrows (j : jsval) (out : list jsstring) :
  tuc_lines j = Normal out -> Forall arrow_line out.
Proof.
  unfold tuc_lines.
  assert (Normal [] = Normal out -> Forall arrow_line out) as Hnone.
  { intros H. injection H as <-. constructor. }
  destruct (truthy j); [| assumption].
  destruct (get j key_tuc) as [tuc |]; simpl; [| discriminate].
  destruct tuc as [| | | | | items |]; try assumption.
  destruct (Nat.ltb 0 (length items)); [| assumption].
  intros H.
  destruct (forEach_appends on_item arrow_line on_item_appends items _ _ H)
    as (added & -> & Ha).
  assumption.
Qed.

Lemma get_array_truthy (j : jsval) (k : jsstring) (items : list jsval) :
  get j k = Normal (JArr items) -> truthy j = true.
Proof. destruct j; simpl; try discriminate; reflexivity. Qed.

Lemma tuc_lines_emits (j : jsval) (items : list jsval) (item : jsval)
      (line : jsstring) (out : list jsstring) :
  get j key_tuc = Normal (JArr items) -> In item items -> emits item line ->
  tuc_lines j = Normal out -> In line out.
Proof.
  intros Ht Hin Hem. unfold tuc_lines.
  rewrite (get_array_truthy _ _ _ Ht), Ht. simpl.
  assert (Nat.ltb 0 (length items) = true) as ->.
  { destruct items; [contradiction | reflexivity]. }
  apply forEach_keeps with (Q := arrow_line) (x := item).
  - exact on_item_appends.
  - assumption.
  - apply on_item_emits. assumption.
Qed.

(** The examples section: the header, then one line per example among
    the first six. *)
Lemma example_lines_section (j : jsval) (exs : list jsval)
      (out1 out : list jsstring) :
  get j key_examples = Normal (JArr exs) -> exs <> [] ->
  example_lines j out1 = Normal out ->
  exists rendered,
    out = out1 ++ examples_header :: rendered
    /\ Forall2 (fun ex l => example_line ex = Normal l) (firstn 6 exs) rendered.
Proof.
  intros He Hne. unfold example_lines.
  rewrite (get_array_truthy _ _ _ He), He. cbn [cbind].
  assert (Nat.eqb (length exs) 0 = false) as ->.
  { destruct exs; [congruence | reflexivity]. }
  cbn [negb]. generalize (firstn 6 exs) as l.
  assert (forall (l : list jsval) (acc : list jsstring),
             forEach on_example l acc = Normal out ->
             exists rendered,
               out = acc ++ rendered
               /\ Forall2 (fun ex l => example_line ex = Normal l) l rendered)
    as Hloop.
  { induction l as [|ex l IH]; intros acc H; simpl in H.
    - injection H as <-. exists []. rewrite app_nil_r. split; constructor.
    - unfold on_example at 1 in H.
      destruct (example_line ex) as [line |] eqn:L; simpl in H; [| discriminate].
      destruct (IH _ H) as (rendered & -> & F).
      exists (line :: rendered). rewrite <- app_assoc. split; [reflexivity |].
      constructor; assumption. }
  intros l H. destruct (Hloop l _ H) as (rendered & -> & F).
  exists rendered. rewrite <- app_assoc. split; [reflexivity | assumption].
Qed.

Lemma example_lines_extends (j : jsval) (out1 out : list jsstring) :
  example_lines j out1 = Normal out -> exists added, out = out1 ++ added.
Proof.
  unfold example_lines.
  assert (Normal out1 = Normal out -> exists added, out = out1 ++ added) as Hnone.
  { intros H. injection H as <-. exists []. rewrite app_nil_r. reflexivity. }
  destruct (truthy j); [| assumption].
  destruct (get j key_examples) as [exs |] eqn:He; simpl; [| discriminate].
  destruct exs as [| | | | | items |]; try assumption.
  destruct (negb (Nat.eqb (length items) 0)) eqn:Hl; [| assumption].
  intros H.
  assert (forall (l : list jsval) (acc : list jsstring),
             forEach on_example l acc = Normal out ->
             exists added, out = acc ++ added) as Hloop.
  { induction l as [|ex l IH]; intros acc H'; simpl in H'.
    - injection H' as <-. exists []. rewrite app_nil_r. reflexivity.
    - unfold on_example at 1 in H'.
      destruct (example_line ex) as [line |]; simpl in H'; [| discriminate].
      destruct (IH _ H') as (added & ->).
      exists (line :: added). rewrite <- app_assoc. reflexivity. }
  destruct (Hloop _ _ H) as (added & ->).
  exists (examples_header :: added). rewrite <- app_assoc. reflexivity.
Qed.

(** ** Rendering of an example *)

Lemma element_string_truthy (v : jsval) :
  truthy v = true -> element_string v = to_string v.
Proof. destruct v; simpl; try discriminate; reflexivity. Qed.

Lemma example_line_rendered (ex : jsval) (source target : option jsstring) :
  has_text ex key_first source -> has_text ex key_second target ->
  example_line ex = Normal (rendered_example source target).
Proof.
  intros (first & G1 & F1) (second & G2 & F2).
  unfold example_line. rewrite G1, G2. simpl.
  unfold field_text in F1, F2.
  destruct (truthy first) eqn:T1; destruct (truthy second) eqn:T2.
  - destruct (to_string first) as [a |] eqn:S1; simpl in F1; [| discriminate].
    destruct (to_string second) as [b |] eqn:S2; simpl in F2; [| discriminate].
    injection F1 as <-. injection F2 as <-. simpl.
    rewrite (element_string_truthy _ T1), S1. reflexivity.
  - destruct (to_string first) as [a |] eqn:S1; simpl in F1; [| discriminate].
    injection F1 as <-. injection F2 as <-. simpl.
    rewrite (element_string_truthy _ T1), S1. reflexivity.
  - destruct (to_string second) as [b |] eqn:S2; simpl in F2; [| discriminate].
    injection F1 as <-. injection F2 as <-. reflexivity.
  - injection F1 as <-. injection F2 as <-. reflexivity.
Qed.

Lemma example_line_texts (ex : jsval) (l : jsstring) :
  example_line ex = Normal l ->
  exists source target,
    has_text ex key_first source /\ has_text ex key_second target
    /\ l = rendered_example source target.
Proof.
  intros H.
  assert (exists source, has_text ex key_first source) as [source H1].
  { unfold example_line in H. unfold has_text, field_text.
    destruct (get ex key_first) as [first |]; simpl in H; [| discriminate].
    destruct (get ex key_second) as [second |]; simpl in H; [| discriminate].
    destruct (truthy first) eqn:T1;
      [| exists None, first; split; [reflexivity | rewrite T1; reflexivity]].
    destruct (to_string first) as [a |] eqn:S1;
      [exists (Some a), first; split;
       [reflexivity | rewrite T1, S1; reflexivity] |].
    exfalso.
    destruct (truthy second); simpl in H;
      [destruct (to_string second); simpl in H; [| discriminate] |];
      rewrite (element_string_truthy _ T1), S1 in H; discriminate. }
  assert (exists target, has_text ex key_second target) as [target H2].
  { unfold example_line in H. unfold has_text, field_text.
    destruct (get ex key_first) as [first |]; simpl in H; [| discriminate].
    destruct (get ex key_second) as [second |]; simpl in H; [| discriminate].
    destruct (truthy second) eqn:T2;
      [| exists None, second; split; [reflexivity | rewrite T2; reflexivity]].
    destruct (to_string second) as [b |] eqn:S2; [| discriminate].
    exists (Some b), second. split; [reflexivity | rewrite T2, S2; reflexivity]. }
  exists source, target. split; [assumption |]. split; [assumption |].
  rewrite (example_line_rendered ex source target H1 H2) in H.
  injection H as <-. reflexivity.
Qed.

(** ** Lines of any result *)

Lemma scrape_lines_clean (doc : Document) :
  NoDup (scrape_lines doc) /\ ~ In [] (scrape_lines doc).
Proof.
  unfold scrape_lines. split; [apply clean_NoDup | apply clean_no_empty].
Qed.

(** Whatever the step that produced them, the lines [findWord] resolves
    with are pairwise distinct and none of them is empty. *)
Lemma findWord_lines_clean (host : Host) (word : jsval) (lines : list jsstring)
      (t : Trace) :
  run_findWord host word = Normal (Fulfilled lines, t) ->
  NoDup lines /\ ~ In [] lines.
Proof.
  assert (forall l : jsstring, l <> [] -> NoDup [l] /\ ~ In [] [l]) as Hone.
  { intros l Hl. split; [repeat constructor; simpl; tauto |].
    intros [H | []]. congruence. }
  destruct (negb (truthy word) || negb (is_string word)) eqn:G.
  - rewrite findWord_guard by assumption. intros H. injection H as <- <-.
    apply Hone. discriminate.
  - destruct word as [| | b | r | w | items | props];
      simpl in G; rewrite ?orb_true_r in G; try discriminate.
    destruct (nonempty w) eqn:Hw; [clear G | discriminate].
    destruct (encodeURIComponent (trim w)) as [encoded | e] eqn:E.
    + rewrite (findWord_eq host w encoded Hw E), structured_lookup_eq.
      destruct (network host [] (apiUrl encoded)) as [e | r]
        ; [| destruct (ok r); [destruct (json r) as [j | e];
                               [unfold on_api_json;
                                destruct (api_lines j) as [out | e];
                                simpl; [destruct (Nat.eqb (length out) 0) eqn:L |] | ] |]];
        simpl;
        try (rewrite (fallback_eq host _ _ _ E), scrape_eq; simpl;
             intros H; injection H as <- <-;
             destruct (network host _ (pageUrl encoded)) as [e' | r'];
             [apply Hone; discriminate |];
             destruct (ok r'); [| apply Hone; discriminate];
             destruct (text r') as [html | e']; [| apply Hone; discriminate];
             destruct (parseFromString host html) as [doc | e'];
             [apply scrape_lines_clean | apply Hone; discriminate]).
      intros H. injection H as <- <-.
      split; [apply clean_NoDup | apply clean_no_empty].
    + unfold run_findWord, findWord. simpl. rewrite Hw, E. discriminate.
Qed.

(** ** The structured result *)

Lemma arrow_line_not_header (l : jsstring) : arrow_line l -> l <> examples_header.
Proof. intros [s ->]. discriminate. Qed.

Lemma arrow_line_nonempty (l : jsstring) : arrow_line l -> l <> [].
Proof. intros [s ->]. discriminate. Qed.

Lemma Forall2_In_left {A B : Type} (R : A -> B -> Prop) (xs : list A) (ys : list B)
      (x : A) :
  Forall2 R xs ys -> In x xs -> exists y, In y ys /\ R x y.
Proof.
  induction 1 as [|a b xs ys Hab F IH]; intros Hin; [contradiction |].
  destruct Hin as [-> | Hin].
  - exists b. split; [left; reflexivity | assumption].
  - destruct (IH Hin) as (y & Hy & Hr). exists y. split; [right |]; assumption.
Qed.

Lemma Forall2_In_right {A B : Type} (R : A -> B -> Prop) (xs : list A) (ys : list B)
      (y : B) :
  Forall2 R xs ys -> In y ys -> exists x, In x xs /\ R x y.
Proof.
  induction 1 as [|a b xs ys Hab F IH]; intros Hin; [contradiction |].
  destruct Hin as [-> | Hin].
  - exists a. split; [left; reflexivity | assumption].
  - destruct (IH Hin) as (x & Hx & Hr). exists x. split; [right |]; assumption.
Qed.

Section Structured.

Variable host : Host.
Variables w encoded : jsstring.
Variable j : jsval.

Hypothesis word_given : nonempty w = true.
Hypothesis word_encoded : encodeURIComponent (trim w) = Normal encoded.
Hypothesis answered : api_answers host encoded j.

(** When the extraction yields at least one line, [findWord] resolves
    with the cleaned lines after the one request to the JSON endpoint. *)
Lemma structured_success (out : list jsstring) :
  api_lines j = Normal out -> out <> [] ->
  run_findWord host (JStr w) = Normal (Fulfilled (clean out), [apiUrl encoded]).
Proof.
  intros L Hne. destruct answered as (r & N & Hok & Hj).
  rewrite (findWord_eq host w encoded word_given word_encoded).
  rewrite structured_lookup_eq, N, Hok, Hj. unfold on_api_json. rewrite L. simpl.
  destruct out; [congruence | reflexivity].
Qed.

Lemma api_lines_split (out : list jsstring) :
  api_lines j = Normal out ->
  exists out1, tuc_lines j = Normal out1 /\ example_lines j out1 = Normal out.
Proof.
  unfold api_lines. destruct (tuc_lines j) as [out1 |]; simpl; [| discriminate].
  intros H. exists out1. split; [reflexivity | assumption].
Qed.

(** C4, as amended: when the extraction completes and a unit of [tuc]
    emits a line (the arrow followed by the text of one of its meanings,
    that text being non-empty, or by the text of its phrase when it has
    no meanings), the result contains that line and the page is never
    requested: the only request is the one to the JSON endpoint. *)
Theorem meaning_line_without_scrape (out : list jsstring) (items : list jsval)
        (item : jsval) (line : jsstring) :
  api_lines j = Normal out ->
  get j key_tuc = Normal (JArr items) -> In item items -> emits item line ->
  exists lines,
    run_findWord host (JStr w) = Normal (Fulfilled lines, [apiUrl encoded])
    /\ In line lines.
Proof using host w encoded j word_given word_encoded answered.
  intros L Ht Hin Hem.
  destruct (api_lines_split out L) as (out1 & L1 & L2).
  pose proof (tuc_lines_emits j items item line out1 Ht Hin Hem L1) as H1.
  destruct (example_lines_extends j out1 out L2) as (added & ->).
  assert (In line (out1 ++ added)) as Hout by (apply in_or_app; left; assumption).
  exists (clean (out1 ++ added)). split.
  - apply structured_success; [assumption |].
    intros E. rewrite E in Hout. contradiction.
  - apply clean_In. split; [assumption |].
    apply arrow_line_nonempty.
    destruct Hem as [? ? ? s ? ? ? ? ? -> | ? ? ? s ? ? ? ? ? ? ? ->];
      exists s; reflexivity.
Qed.

(** C6, as amended: when the extraction completes on a response with a
    non-empty [examples] array, the result holds the header line (a line break
    followed by "Examples:") after the arrow lines; after the header
    come at most six lines, each the rendering of one of the first six
    examples: the source text, optionally followed by a space, the dash
    and the target text; and every non-empty rendering of one of the
    first six examples is in the result. *)
Theorem examples_section_of_structured_response (out : list jsstring)
        (exs : list jsval) :
  api_lines j = Normal out ->
  get j key_examples = Normal (JArr exs) -> exs <> [] ->
  exists pre post,
    run_findWord host (JStr w)
    = Normal (Fulfilled (pre ++ (line_break ++ lit "Examples:") :: post),
              [apiUrl encoded])
    /\ Forall arrow_line pre
    /\ length post <= 6
    /\ (forall l, In l post ->
          exists ex source target,
            In ex (firstn 6 exs)
            /\ has_text ex key_first source /\ has_text ex key_second target
            /\ l = rendered_example source target)
    /\ (forall ex source target,
          In ex (firstn 6 exs) ->
          has_text ex key_first source -> has_text ex key_second target ->
          rendered_example source target <> [] ->
          In (rendered_example source target)
             (pre ++ (line_break ++ lit "Examples:") :: post)).
Proof using host w encoded j word_given word_encoded answered.
  intros L He Hne.
  change (line_break ++ lit "Examples:") with examples_header.
  destruct (api_lines_split out L) as (out1 & L1 & L2).
  destruct (example_lines_section j exs out1 out He Hne L2) as (rendered & -> & F).
  pose proof (tuc_lines_arrows j out1 L1) as Harrows.
  assert (~ In examples_header out1) as Hnot.
  { intros Hin. rewrite Forall_forall in Harrows.
    exact (arrow_line_not_header _ (Harrows _ Hin) eq_refl). }
  destruct (clean_first out1 rendered examples_header Hnot)
    as (post & E & Hpost & Hlen); [discriminate |].
  exists (clean out1), post.
  split; [| split; [| split; [| split]]].
  - rewrite (structured_success _ L).
    + apply (f_equal (fun l => Normal (Fulfilled l, [apiUrl encoded]))).
      exact E.
    + intros E0. apply app_eq_nil in E0. destruct E0 as [_ E0]. discriminate.
  - apply Forall_forall. intros l Hl. apply clean_In in Hl.
    rewrite Forall_forall in Harrows. apply Harrows. tauto.
  - apply Nat.le_trans with (length rendered); [assumption |].
    rewrite <- (Forall2_length F). rewrite length_firstn. apply Nat.le_min_l.
  - intros l Hl. apply Hpost in Hl. destruct Hl as [Hl _].
    destruct (Forall2_In_right _ _ _ l F Hl) as (ex & Hex & Hline).
    destruct (example_line_texts ex l Hline) as (source & target & H1 & H2 & ->).
    exists ex, source, target. tauto.
  - intros ex source target Hex H1 H2 Hn.
    destruct (Forall2_In_left _ _ _ ex F Hex) as (l & Hl & Hline).
    rewrite (example_line_rendered ex source target H1 H2) in Hline.
    injection Hline as <-.
    assert (In (rendered_example source target)
               (clean (out1 ++ examples_header :: rendered))) as Hin.
    { apply clean_In. split; [| assumption].
      apply in_or_app. right. right. assumption. }
    rewrite E in Hin. exact Hin.
Qed.

(** C7: when the extraction yields the lines [out], the result holds
    every non-empty line of [out] exactly once, however many times it
    was extracted, holds nothing else, holds no empty line, and keeps
    the order of first occurrences: the lines before [x] in the result
    are the non-empty lines extracted before the first [x]. *)
Theorem structured_lines_deduplicated (out : list jsstring) :
  api_lines j = Normal out -> out <> [] ->
  exists lines,
    run_findWord host (JStr w) = Normal (Fulfilled lines, [apiUrl encoded])
    /\ (forall x, In x out -> x <> [] -> count_occ jsstring_eq_dec lines x = 1)
    /\ (forall x, In x lines -> In x out /\ x <> [])
    /\ (forall l1 x l2,
          out = l1 ++ x :: l2 -> ~ In x l1 -> x <> [] ->
          exists r1 r2, lines = r1 ++ x :: r2
                        /\ (forall y, In y r1 <-> In y l1 /\ y <> [])).
Proof using host w encoded j word_given word_encoded answered.
  intros L Hne. exists (clean out).
  split; [apply structured_success; assumption |].
  split; [| split].
  - intros x Hx Hn.
    apply (proj1 (NoDup_count_occ' jsstring_eq_dec (clean out)) (clean_NoDup out)).
    apply clean_In. tauto.
  - intros x Hx. apply clean_In. assumption.
  - intros l1 x l2 -> Hx Hn.
    destruct (clean_first l1 l2 x Hx Hn) as (r2 & E & _).
    exists (clean l1), r2. split; [assumption |].
    intros y. apply clean_In.
Qed.

End Structured.

Lemma api_only_answers (j : jsval) (encoded : jsstring) :
  api_answers (Samples.api_only j) encoded j.
Proof.
  exists (Samples.json_response j). split; [reflexivity |]. split; reflexivity.
Qed.

Lemma meaning_line_without_scrape_witness :
  exists lines,
    run_findWord (Samples.api_only Samples.one_meaning) (JStr (lit "a"))
    = Normal (Fulfilled lines, [apiUrl (lit "a")])
    /\ In (arrow ++ lit "A") lines.
Proof.
  apply (meaning_line_without_scrape
           (Samples.api_only Samples.one_meaning) (lit "a") (lit "a")
           Samples.one_meaning eq_refl eq_refl
           (api_only_answers Samples.one_meaning (lit "a"))
           [arrow ++ lit "A"]
           [JObj [(key_meanings, JArr [JObj [(key_text, Samples.text_A)]])]]
           (JObj [(key_meanings, JArr [JObj [(key_text, Samples.text_A)]])])
           (arrow ++ lit "A")).
  - reflexivity.
  - reflexivity.
  - left. reflexivity.
  - apply emits_meaning with (ms := [JObj [(key_text, Samples.text_A)]])
                             (m := JObj [(key_text, Samples.text_A)])
                             (t := Samples.text_A) (s := lit "A").
    + reflexivity.
    + left. reflexivity.
    + reflexivity.
    + reflexivity.
    + reflexivity.
    + reflexivity.
Defined.

(** C4 as stated fails when the meanings list is not empty but holds no
    text: [{tuc: [{meanings: [{text: ""}]}]}] yields no line, and the
    page is requested. *)
Lemma empty_meaning_text_falls_to_scrape :
  get Samples.empty_meaning_text key_tuc
  = Normal (JArr [JObj [(key_meanings, JArr [JObj [(key_text, JStr [])]])]])
  /\ get (JObj [(key_meanings, JArr [JObj [(key_text, JStr [])]])]) key_meanings
     = Normal (JArr [JObj [(key_text, JStr [])]])
  /\ api_lines Samples.empty_meaning_text = Normal []
  /\ run_findWord (Samples.api_only Samples.empty_meaning_text) (JStr (lit "a"))
     = Normal (Fulfilled [offline_fallback],
               [apiUrl (lit "a"); pageUrl (lit "a")]).
Proof. repeat split. Qed.

Lemma examples_section_of_structured_response_witness :
  exists pre post,
    run_findWord (Samples.api_only Samples.one_example) (JStr (lit "a"))
    = Normal (Fulfilled (pre ++ (line_break ++ lit "Examples:") :: post),
              [apiUrl (lit "a")])
    /\ Forall arrow_line pre
    /\ length post <= 6
    /\ (forall l, In l post ->
          exists ex source target,
            In ex (firstn 6 [Samples.cat_meo])
            /\ has_text ex key_first source /\ has_text ex key_second target
            /\ l = rendered_example source target)
    /\ (forall ex source target,
          In ex (firstn 6 [Samples.cat_meo]) ->
          has_text ex key_first source -> has_text ex key_second target ->
          rendered_example source target <> [] ->
          In (rendered_example source target)
             (pre ++ (line_break ++ lit "Examples:") :: post)).
Proof.
  apply (examples_section_of_structured_response
           (Samples.api_only Samples.one_example) (lit "a") (lit "a")
           Samples.one_example eq_refl eq_refl
           (api_only_answers Samples.one_example (lit "a"))
           [examples_header; lit "cat " ++ dash ++ lit "meo"]
           [Samples.cat_meo]).
  - reflexivity.
  - reflexivity.
  - discriminate.
Defined.

(** C6 as stated fails when the extraction throws: [{examples: [null]}]
    carries a non-empty examples array, but reading [ex.first] on the
    null entry throws a TypeError after the header was pushed; the
    lines are discarded, the page is requested and the result holds no
    header. *)
Lemma null_example_entry_falls_to_scrape :
  get Samples.null_example key_examples = Normal (JArr [JNull])
  /\ api_lines Samples.null_example = Throw TypeError
  /\ run_findWord (Samples.api_only Samples.null_example) (JStr (lit "a"))
     = Normal (Fulfilled [offline_fallback],
               [apiUrl (lit "a"); pageUrl (lit "a")])
  /\ ~ In (line_break ++ lit "Examples:") [offline_fallback].
Proof.
  split; [reflexivity |]. split; [reflexivity |]. split; [reflexivity |].
  intros [H | []]. discriminate.
Qed.

Lemma structured_lines_deduplicated_witness :
  exists lines,
    run_findWord (Samples.api_only Samples.duplicate_meaning) (JStr (lit "a"))
    = Normal (Fulfilled lines, [apiUrl (lit "a")])
    /\ (forall x, In x [arrow ++ lit "A"; arrow ++ lit "A"] -> x <> [] ->
                  count_occ jsstring_eq_dec lines x = 1)
    /\ (forall x, In x lines ->
                  In x [arrow ++ lit "A"; arrow ++ lit "A"] /\ x <> [])
    /\ (forall l1 x l2,
          [arrow ++ lit "A"; arrow ++ lit "A"] = l1 ++ x :: l2 ->
          ~ In x l1 -> x <> [] ->
          exists r1 r2, lines = r1 ++ x :: r2
                        /\ (forall y, In y r1 <-> In y l1 /\ y <> [])).
Proof.
  apply (structured_lines_deduplicated
           (Samples.api_only Samples.duplicate_meaning) (lit "a") (lit "a")
           Samples.duplicate_meaning eq_refl eq_refl
           (api_only_answers Samples.duplicate_meaning (lit "a"))
           [arrow ++ lit "A"; arrow ++ lit "A"]).
  - reflexivity.
  - discriminate.
Defined.

(** The examples of the specification, evaluated. *)
Example one_meaning_result :
  run_findWord (Samples.api_only Samples.one_meaning) (JStr (lit "a"))
  = Normal (Fulfilled [arrow ++ lit "A"], [apiUrl (lit "a")]).
Proof. reflexivity. Qed.

Example duplicate_meaning_result :
  run_findWord (Samples.api_only Samples.duplicate_meaning) (JStr (lit "a"))
  = Normal (Fulfilled [arrow ++ lit "A"], [apiUrl (lit "a")]).
Proof. reflexivity. Qed.

Example one_example_result :
  run_findWord (Samples.api_only Samples.one_example) (JStr (lit "a"))
  = Normal (Fulfilled [examples_header; lit "cat " ++ dash ++ lit "meo"],
            [apiUrl (lit "a")]).
Proof. reflexivity. Qed.

(** ** Malformed examples *)

(** C10: an example with neither field makes the loop push the empty
    string, one with the target only the dash, a space and the target,
    one with the source only the bare source; when the extraction
    completes, the rendering of each of the first six examples is in
    the extracted sequence, reaches the result when it is not empty,
    and is filtered out when it is; and no result of [findWord] ever
    holds an empty line. *)
Theorem malformed_examples_leave_no_empty_line (ex : jsval) :
  (has_text ex key_first None -> has_text ex key_second None ->
   forall out, on_example out ex = Normal (out ++ [[]]))
  /\ (forall t, has_text ex key_first None -> has_text ex key_second (Some t) ->
                forall out,
                  on_example out ex = Normal (out ++ [[0x2014; 0x20]%N ++ t]))
  /\ (forall s, has_text ex key_first (Some s) -> has_text ex key_second None ->
                forall out, on_example out ex = Normal (out ++ [s]))
  /\ (forall host w encoded j out exs source target,
         nonempty w = true ->
         encodeURIComponent (trim w) = Normal encoded ->
         api_answers host encoded j ->
         api_lines j = Normal out ->
         get j key_examples = Normal (JArr exs) -> In ex (firstn 6 exs) ->
         has_text ex key_first source -> has_text ex key_second target ->
         In (rendered_example source target) out
         /\ exists lines,
             run_findWord host (JStr w)
             = Normal (Fulfilled lines, [apiUrl encoded])
             /\ ~ In [] lines
             /\ (rendered_example source target <> [] ->
                 In (rendered_example source target) lines))
  /\ (forall host word lines t,
         run_findWord host word = Normal (Fulfilled lines, t) -> ~ In [] lines).
Proof.
  assert (forall source target,
             has_text ex key_first source -> has_text ex key_second target ->
             forall out,
               on_example out ex
               = Normal (out ++ [rendered_example source target])) as Hpush.
  { intros source target H1 H2 out. unfold on_example.
    rewrite (example_line_rendered ex source target H1 H2). reflexivity. }
  split; [| split; [| split; [| split]]].
  - intros H1 H2. exact (Hpush None None H1 H2).
  - intros t H1 H2. exact (Hpush None (Some t) H1 H2).
  - intros s H1 H2. exact (Hpush (Some s) None H1 H2).
  - intros host w encoded j out exs source target Hw E A L He Hin H1 H2.
    destruct (api_lines_split j out L) as (out1 & L1 & L2).
    assert (exs <> []) as Hne by (intros ->; destruct Hin).
    destruct (example_lines_section j exs out1 out He Hne L2)
      as (rendered & Eout & F).
    destruct (Forall2_In_left _ _ _ ex F Hin) as (l & Hl & Hline).
    rewrite (example_line_rendered ex source target H1 H2) in Hline.
    injection Hline as <-.
    assert (In (rendered_example source target) out) as Hout.
    { rewrite Eout. apply in_or_app. right. right. assumption. }
    split; [exact Hout |].
    exists (clean out). split; [| split].
    + apply (structured_success host w encoded j Hw E A out L).
      intros E0. rewrite E0 in Hout. contradiction.
    + apply clean_no_empty.
    + intros Hn. apply clean_In. split; assumption.
  - intros host word lines t H.
    exact (proj2 (findWord_lines_clean host word lines t H)).
Qed.

Lemma malformed_examples_leave_no_empty_line_witness :
  on_example [examples_header] (JObj []) = Normal ([examples_header] ++ [[]])
  /\ on_example [examples_header] Samples.meo_only
     = Normal ([examples_header] ++ [[0x2014; 0x20]%N ++ lit "meo"])
  /\ on_example [examples_header] (JObj [(key_first, JStr (lit "cat"))])
     = Normal ([examples_header] ++ [lit "cat"])
  /\ (In (rendered_example None (Some (lit "meo")))
          [examples_header; dash ++ lit "meo"; []; lit "cat"]
      /\ exists lines,
          run_findWord (Samples.api_only Samples.malformed_examples)
                       (JStr (lit "a"))
          = Normal (Fulfilled lines, [apiUrl (lit "a")])
          /\ ~ In [] lines
          /\ (rendered_example None (Some (lit "meo")) <> [] ->
              In (rendered_example None (Some (lit "meo"))) lines))
  /\ ~ In [] [examples_header; dash ++ lit "meo"; lit "cat"].
Proof.
  split; [| split; [| split; [| split]]].
  - apply (proj1 (malformed_examples_leave_no_empty_line (JObj []))).
    + exists JUndefined. split; reflexivity.
    + exists JUndefined. split; reflexivity.
  - apply (proj1 (proj2 (malformed_examples_leave_no_empty_line
                           Samples.meo_only))).
    + exists JUndefined. split; reflexivity.
    + exists (JStr (lit "meo")). split; reflexivity.
  - apply (proj1 (proj2 (proj2 (malformed_examples_leave_no_empty_line
                                  (JObj [(key_first, JStr (lit "cat"))]))))).
    + exists (JStr (lit "cat")). split; reflexivity.
    + exists JUndefined. split; reflexivity.
  - apply (proj1 (proj2 (proj2 (proj2 (malformed_examples_leave_no_empty_line
                                         Samples.meo_only))))
             (Samples.api_only Samples.malformed_examples)
             (lit "a") (lit "a") Samples.malformed_examples
             [examples_header; dash ++ lit "meo"; []; lit "cat"]
             [Samples.meo_only; JObj []; JObj [(key_first, JStr (lit "cat"))]]
             None (Some (lit "meo")) eq_refl eq_refl
             (api_only_answers Samples.malformed_examples (lit "a"))
             eq_refl eq_refl).
    + left. reflexivity.
    + exists JUndefined. split; reflexivity.
    + exists (JStr (lit "meo")). split; reflexivity.
  - apply (proj2 (proj2 (proj2 (proj2
             (malformed_examples_leave_no_empty_line JNull))))
             (Samples.api_only Samples.malformed_examples) (JStr (lit "a"))
             [examples_header; dash ++ lit "meo"; lit "cat"]
             [apiUrl (lit "a")]).
    reflexivity.
Defined.

(** ** The scraped result *)

Lemma collect_nothing (doc : Document) (selectors : list jsstring) :
  (forall sel, In sel selectors -> querySelectorAll doc sel = []) ->
  collect doc selectors = [].
Proof.
  unfold collect. induction selectors as [|sel r IH]; intros H; [reflexivity |].
  simpl. rewrite (H sel (or_introl eq_refl)). simpl.
  apply IH. intros s Hs. apply H. right. assumption.
Qed.

Lemma scrape_lines_body_text (doc : Document) (t : jsstring) :
  (forall sel, In sel meaningSelectors -> querySelectorAll doc sel = []) ->
  querySelector_content doc metaSelector = None ->
  body_textContent doc = Some t ->
  substring0 800 (collapse_white_space (trim t)) <> [] ->
  exists rest,
    scrape_lines doc = substring0 800 (collapse_white_space (trim t)) :: rest
    /\ (collect doc exampleSelectors = [] -> rest = [])
    /\ (forall l, In l rest ->
                  l = examples_header
                  \/ In l (firstn 8 (collect doc exampleSelectors)))
    /\ ~ In (substring0 800 (collapse_white_space (trim t))) rest.
Proof.
  intros Hsel Hmeta Hbody Hline.
  unfold scrape_lines. rewrite (collect_nothing doc meaningSelectors Hsel).
  unfold with_meta_description. rewrite Hmeta.
  assert (bodyText doc = collapse_white_space (trim t)) as ->.
  { unfold bodyText. rewrite Hbody. destruct t; [| reflexivity].
    exfalso. apply Hline. reflexivity. }
  assert (nonempty (collapse_white_space (trim t)) = true) as ->.
  { apply nonempty_true. intros E. apply Hline. rewrite E. reflexivity. }
  set (line := substring0 800 (collapse_white_space (trim t))) in *.
  set (section := match collect doc exampleSelectors with
                  | [] => []
                  | _ :: _ => [examples_header]
                              ++ firstn 8 (collect doc exampleSelectors)
                  end).
  assert (match collect doc exampleSelectors with
          | [] => [line]
          | _ :: _ => [line] ++ [examples_header]
                      ++ firstn 8 (collect doc exampleSelectors)
          end = [] ++ line :: section) as ->.
  { unfold section. destruct (collect doc exampleSelectors); reflexivity. }
  destruct (clean_first [] section line (fun H => H) Hline)
    as (rest & E & Hrest & _).
  exists rest. split; [exact E |]. split; [| split].
  - intros Hnone. unfold section in Hrest. rewrite Hnone in Hrest.
    destruct rest as [|l rest]; [reflexivity |].
    destruct (Hrest l (or_introl eq_refl)) as [[] _].
  - intros l Hl. apply Hrest in Hl. destruct Hl as [Hl _].
    unfold section in Hl. destruct (collect doc exampleSelectors); [contradiction |].
    destruct Hl as [<- | Hl]; [left; reflexivity | right; assumption].
  - pose proof (clean_NoDup ([] ++ line :: section)) as ND.
    rewrite E in ND. simpl in ND. inversion ND; assumption.
Qed.

(** C8, as amended: when the structured lookup has failed and the page
    parses to a document in which no meaning selector matches a node and
    no description metadata tag is present, and the body text, trimmed,
    with every run of white space collapsed to one space and cut to its
    first 800 code units, is not empty, this text is the first line of
    the result; it is the only line when no example selector yields a
    text, and otherwise the lines after it are the examples header and
    examples only. *)
Theorem body_text_is_the_content_line (host : Host) (w encoded : jsstring)
        (doc : Document) (t : jsstring) :
  nonempty w = true ->
  encodeURIComponent (trim w) = Normal encoded ->
  structured_fails host encoded ->
  page_answers host [apiUrl encoded] encoded doc ->
  (forall sel, In sel meaningSelectors -> querySelectorAll doc sel = []) ->
  querySelector_content doc metaSelector = None ->
  body_textContent doc = Some t ->
  firstn 800 (collapse_white_space (trim t)) <> [] ->
  exists rest,
    run_findWord host (JStr w)
    = Normal (Fulfilled (firstn 800 (collapse_white_space (trim t)) :: rest),
              [apiUrl encoded; pageUrl encoded])
    /\ (collect doc exampleSelectors = [] -> rest = [])
    /\ (forall l, In l rest ->
                  l = examples_header
                  \/ In l (firstn 8 (collect doc exampleSelectors)))
    /\ ~ In (firstn 800 (collapse_white_space (trim t))) rest.
Proof.
  intros Hw E Hfail (r & html & N & Hok & Ht & Hp) Hsel Hmeta Hbody Hline.
  destruct (scrape_lines_body_text doc t Hsel Hmeta Hbody Hline)
    as (rest & Hlines & Hrest).
  exists rest. split; [| exact Hrest].
  apply structured_fails_iff in Hfail. destruct Hfail as [e He].
  rewrite (findWord_eq host w encoded Hw E), He.
  rewrite (fallback_eq host _ _ _ E), scrape_eq, N, Hok, Ht, Hp. simpl.
  rewrite Hlines. reflexivity.
Qed.

Lemma page_only_answers (doc : Document) (encoded : jsstring) :
  page_answers (Samples.page_only doc) [apiUrl encoded] encoded doc.
Proof.
  exists (Samples.page_response (lit "<html>")), (lit "<html>").
  repeat split.
Qed.

Lemma page_only_structured_fails (doc : Document) (encoded : jsstring) :
  structured_fails (Samples.page_only doc) encoded.
Proof. apply api_network_error with Samples.unreachable. reflexivity. Qed.

Lemma body_text_is_the_content_line_witness :
  exists rest,
    run_findWord (Samples.page_only Samples.plain_page) (JStr (lit "a"))
    = Normal (Fulfilled (lit "hello world" :: rest),
              [apiUrl (lit "a"); pageUrl (lit "a")])
    /\ (collect Samples.plain_page exampleSelectors = [] -> rest = [])
    /\ (forall l, In l rest ->
                  l = examples_header
                  \/ In l (firstn 8 (collect Samples.plain_page exampleSelectors)))
    /\ ~ In (lit "hello world") rest.
Proof.
  apply (body_text_is_the_content_line
           (Samples.page_only Samples.plain_page) (lit "a") (lit "a")
           Samples.plain_page (lit " hello   world ") eq_refl eq_refl
           (page_only_structured_fails Samples.plain_page (lit "a"))
           (page_only_answers Samples.plain_page (lit "a"))).
  - intros sel _. reflexivity.
  - reflexivity.
  - reflexivity.
  - discriminate.
Defined.

(** C8 as stated fails on a page whose body has no text: no meaning
    selector matches, there is no description tag, and the result holds
    no line at all, so that the wrapper answers "No result found". *)
Lemma blank_page_has_no_content_line :
  (forall sel, In sel meaningSelectors ->
               querySelectorAll Samples.blank_page sel = [])
  /\ querySelector_content Samples.blank_page metaSelector = None
  /\ body_textContent Samples.blank_page = Some []
  /\ run_findWord (Samples.page_only Samples.blank_page) (JStr (lit "a"))
     = Normal (Fulfilled [], [apiUrl (lit "a"); pageUrl (lit "a")])
  /\ fst (getDefinition (Samples.page_only Samples.blank_page) (JStr (lit "a")) [])
     = Fulfilled no_result_found.
Proof. repeat split. Qed.

(** ** Responses of the documented shape *)

Lemma forEach_total {A S : Type} (f : S -> A -> completion S) (xs : list A) :
  (forall x, In x xs -> forall s, exists s', f s x = Normal s') ->
  forall s, exists s', forEach f xs s = Normal s'.
Proof.
  induction xs as [|x r IH]; intros H s; simpl.
  - eauto.
  - destruct (H x (or_introl eq_refl) s) as [mid ->]. simpl.
    apply IH. intros y Hy. apply H. right. assumption.
Qed.

Lemma optional_string_text (o : option jsval) (out : list jsstring) :
  Shape.optional_string o = true ->
  let t := match o with Some x => x | None => JUndefined end in
  exists out', (if truthy t then push_arrow out t else Normal out) = Normal out'.
Proof.
  destruct o as [[| | | | s | |] |]; simpl; try discriminate; intros _.
  - destruct (nonempty s); unfold push_arrow; simpl; eauto.
  - eauto.
Qed.

Lemma shaped_meaning_total (m : jsval) (out : list jsstring) :
  Shape.meaning m = true -> exists out', on_meaning out m = Normal out'.
Proof.
  destruct m as [| | | | | | props]; simpl; try discriminate.
  intros H. unfold on_meaning. simpl.
  pose proof (optional_string_text (lookup key_text props) out H) as T.
  destruct (lookup key_text props); exact T.
Qed.

Lemma shaped_unit_total (item : jsval) (out : list jsstring) :
  Shape.unit_ item = true -> exists out', on_item out item = Normal out'.
Proof.
  destruct item as [| | | | | | props]; simpl; try discriminate.
  intros H. apply andb_true_iff in H. destruct H as [Hm Hp].
  unfold on_item. simpl.
  assert (exists out',
             (phrase <- match lookup key_phrase props with
                        | Some x => Normal x
                        | None => Normal JUndefined
                        end ;;
              if truthy phrase
              then t <- get phrase key_text ;;
                   if truthy t then push_arrow out t else Normal out
              else Normal out) = Normal out') as Hphrase.
  { destruct (lookup key_phrase props) as [[| | | | | | q] |];
      simpl; try discriminate; [| eauto].
    pose proof (optional_string_text (lookup key_text q) out Hp) as T.
    destruct (lookup key_text q); exact T. }
  destruct (lookup key_meanings props) as [[| | | | | ms |] |];
    simpl; try discriminate; [| exact Hphrase].
  destruct ms as [|m ms]; [exact Hphrase |].
  cbn [length Nat.eqb negb].
  apply forEach_total. intros x Hx s.
  apply shaped_meaning_total.
  rewrite forallb_forall in Hm. apply Hm. assumption.
Qed.

Lemma shaped_example_total (ex : jsval) :
  Shape.example ex = true -> exists line, example_line ex = Normal line.
Proof.
  destruct ex as [| | | | | | props]; simpl; try discriminate.
  intros H. apply andb_true_iff in H. destruct H as [H1 H2].
  unfold example_line. simpl.
  destruct (lookup key_first props) as [[| | | | a | |] |];
    simpl in H1; try discriminate;
    destruct (lookup key_second props) as [[| | | | b | |] |];
    simpl in H2; try discriminate; simpl;
    try destruct (nonempty a); try destruct (nonempty b); simpl; eauto.
Qed.

Lemma In_firstn {A : Type} (n : nat) (l : list A) (x : A) :
  In x (firstn n l) -> In x l.
Proof.
  revert l; induction n as [|n IH]; intros [|y l]; simpl; try tauto.
  intros [-> | H]; [left; reflexivity | right; apply IH; assumption].
Qed.

(** On a response of the documented shape the extraction completes. *)
Lemma documented_shape_extracts (j : jsval) :
  Shape.response j = true -> exists out, api_lines j = Normal out.
Proof.
  destruct j as [| | | | | | props]; simpl; try discriminate.
  intros H. apply andb_true_iff in H. destruct H as [Ht He].
  assert (exists out1, tuc_lines (JObj props) = Normal out1) as [out1 L1].
  { unfold tuc_lines. simpl.
    destruct (lookup key_tuc props) as [[| | | | | items |] |];
      simpl; try discriminate; eauto.
    destruct (Nat.ltb 0 (length items)); [| eauto].
    apply forEach_total. intros x Hx s. apply shaped_unit_total.
    rewrite forallb_forall in Ht. apply Ht. assumption. }
  unfold api_lines. rewrite L1. cbn [cbind].
  unfold example_lines. cbn [truthy get].
  destruct (lookup key_examples props) as [[| | | | | exs |] |];
    cbn [cbind]; try discriminate; eauto.
  destruct (negb (Nat.eqb (length exs) 0)); [| eauto].
  apply forEach_total. intros x Hx s. unfold on_example.
  destruct (shaped_example_total x) as [line ->]; [| simpl; eauto].
  rewrite forallb_forall in He. apply He.
  apply (In_firstn _ _ _ Hx).
Qed.

(** * Further properties of the script *)

(** ** [trim] and the white-space collapse *)

Section Trimming.

Lemma trimStart_all_white_space (l : jsstring) :
  all_white_space l = true -> trimStart l = [].
Proof.
  induction l as [|c r IH]; simpl; [reflexivity |].
  intros H. apply andb_true_iff in H. destruct H as [-> H]. apply IH, H.
Qed.

Lemma trimStart_head (l : jsstring) : starts_with_text (trimStart l).
Proof.
  induction l as [|c r IH]; simpl; [exact I |].
  destruct (is_white_space c) eqn:W; [exact IH | exact W].
Qed.

Lemma trimStart_nil_all_white_space (l : jsstring) :
  trimStart l = [] -> all_white_space l = true.
Proof.
  induction l as [|c r IH]; simpl; [reflexivity |].
  destruct (is_white_space c); [exact IH | discriminate].
Qed.

Lemma trimStart_app_white_space (pre x : jsstring) :
  all_white_space pre = true -> trimStart (pre ++ x) = trimStart x.
Proof.
  induction pre as [|c r IH]; simpl; [reflexivity |].
  intros H. apply andb_true_iff in H. destruct H as [-> H]. apply IH, H.
Qed.

Lemma trimStart_app_text (x p : jsstring) :
  trimStart x <> [] -> trimStart (x ++ p) = trimStart x ++ p.
Proof.
  induction x as [|c r IH]; simpl; [congruence |].
  destruct (is_white_space c); [exact IH | reflexivity].
Qed.

Lemma all_white_space_rev (l : jsstring) :
  all_white_space l = true -> all_white_space (rev l) = true.
Proof.
  unfold all_white_space. rewrite !forallb_forall.
  intros H c Hc. apply H, in_rev. assumption.
Qed.

Lemma trimEnd_app_white_space (x post : jsstring) :
  all_white_space post = true -> trimEnd (x ++ post) = trimEnd x.
Proof.
  intros H. unfold trimEnd. rewrite rev_app_distr.
  rewrite trimStart_app_white_space by (apply all_white_space_rev; assumption).
  reflexivity.
Qed.

Lemma trim_surrounded (pre x post : jsstring) :
  all_white_space pre = true -> all_white_space post = true ->
  trim (pre ++ x ++ post) = trim x.
Proof.
  intros Hpre Hpost. unfold trim.
  rewrite trimStart_app_white_space by assumption.
  destruct (trimStart x) as [|c r] eqn:E.
  - rewrite trimStart_app_white_space
      by (apply trimStart_nil_all_white_space; assumption).
    rewrite (trimStart_all_white_space post Hpost). reflexivity.
  - rewrite trimStart_app_text by (rewrite E; discriminate).
    rewrite E. apply trimEnd_app_white_space. assumption.
Qed.

Lemma trimStart_snoc (l : jsstring) (c : N) :
  is_white_space c = false -> trimStart (l ++ [c]) = trimStart l ++ [c].
Proof.
  intros W. induction l as [|a r IH]; simpl.
  - rewrite W. reflexivity.
  - destruct (is_white_space a); [exact IH | reflexivity].
Qed.

Lemma trim_head (l : jsstring) : starts_with_text (trim l).
Proof.
  unfold trim, trimEnd. pose proof (trimStart_head l) as H.
  destruct (trimStart l) as [|c r]; [exact I |].
  simpl in H. simpl rev. rewrite (trimStart_snoc _ _ H).
  rewrite rev_app_distr. exact H.
Qed.

Lemma trim_all_white_space (l : jsstring) :
  all_white_space l = true -> trim l = [].
Proof.
  intros H. unfold trim. rewrite (trimStart_all_white_space l H). reflexivity.
Qed.

Lemma trimStart_In (l : jsstring) (c : N) : In c (trimStart l) -> In c l.
Proof.
  induction l as [|a r IH]; simpl; [tauto |].
  destruct (is_white_space a); [intros H; right; apply IH, H | tauto].
Qed.

Lemma trim_In (l : jsstring) (c : N) : In c (trim l) -> In c l.
Proof.
  unfold trim, trimEnd. intros H.
  apply in_rev in H. apply trimStart_In in H. apply in_rev in H.
  apply trimStart_In. assumption.
Qed.

Lemma collapse_single_spaced (s : jsstring) (b : bool) :
  single_spaced b (collapse_from b s) = true.
Proof.
  revert b; induction s as [|c r IH]; intros b; simpl; [reflexivity |].
  destruct (is_white_space c) eqn:W.
  - destruct b; [apply IH |]. simpl. apply IH.
  - simpl. rewrite W. apply IH.
Qed.

Lemma single_spaced_firstn (n : nat) (s : jsstring) (b : bool) :
  single_spaced b s = true -> single_spaced b (firstn n s) = true.
Proof.
  revert s b; induction n as [|n IH]; intros [|c r] b; simpl; try reflexivity.
  destruct (is_white_space c).
  - intros H. apply andb_true_iff in H. destruct H as [-> H].
    simpl. apply IH, H.
  - apply IH.
Qed.

Lemma single_spaced_after_text (s : jsstring) :
  starts_with_text s -> single_spaced false s = true ->
  single_spaced true s = true.
Proof. destruct s as [|c r]; simpl; [reflexivity |]. intros ->. tauto. Qed.

Lemma collapse_head (s : jsstring) :
  starts_with_text s -> starts_with_text (collapse_white_space s).
Proof.
  destruct s as [|c r]; [intros _; exact I |].
  unfold collapse_white_space, starts_with_text. cbn [collapse_from].
  intros W. rewrite W. exact W.
Qed.

Lemma firstn_head (n : nat) (s : jsstring) :
  starts_with_text s -> starts_with_text (firstn n s).
Proof. destruct n, s; simpl; tauto. Qed.

End Trimming.

(** ** [encodeURIComponent] *)

Section Encoding.

(** The recursion of [encodeURIComponent] skips one or two code units. *)
Lemma encode_ind (P : jsstring -> Prop) :
  P [] ->
  (forall c rest,
      P rest -> (forall d rest', rest = d :: rest' -> P rest') -> P (c :: rest)) ->
  forall s, P s.
Proof.
  intros Hnil Hcons s.
  assert (P s /\ (forall d r, s = d :: r -> P r)) as [H _]; [| exact H].
  induction s as [|c rest [IH1 IH2]].
  - split; [assumption | discriminate].
  - split; [apply Hcons; assumption |].
    intros d r E. injection E as _ <-. assumption.
Qed.

Lemma encode_throws_URIError (s : jsstring) (e : JsError) :
  encodeURIComponent s = Throw e -> e = URIError.
Proof.
  revert e. pattern s. apply encode_ind; clear s.
  - discriminate.
  - intros c rest IH1 IH2 e. simpl.
    destruct (uri_unescaped c).
    { destruct (encodeURIComponent rest); simpl; [discriminate |].
      intros H. injection H as <-. apply IH1. reflexivity. }
    destruct (is_low_surrogate c); [intros H; injection H as <-; reflexivity |].
    destruct (is_high_surrogate c).
    + destruct rest as [|d rest']; [intros H; injection H as <-; reflexivity |].
      destruct (is_low_surrogate d);
        [| intros H; injection H as <-; reflexivity].
      destruct (encodeURIComponent rest') eqn:E; simpl; [discriminate |].
      intros H. injection H as <-. apply (IH2 d rest' eq_refl). assumption.
    + destruct (encodeURIComponent rest); simpl; [discriminate |].
      intros H. injection H as <-. apply IH1. reflexivity.
Qed.


Lemma hex_digit_safe (n : N) : (n < 16)%N -> uri_safe (hex_digit n) = true.
Proof.
  intros H. unfold uri_safe, uri_unescaped. 
  assert (is_alpha_digit (hex_digit n) = true) as ->; [| reflexivity].
  unfold is_alpha_digit, hex_digit.
  destruct (n <? 10)%N eqn:E.
  - apply N.ltb_lt in E.
    rewrite !orb_true_iff, !andb_true_iff, !N.leb_le. lia.
  - apply N.ltb_ge in E.
    rewrite !orb_true_iff, !andb_true_iff, !N.leb_le. lia.
Qed.

Lemma percent_octet_safe (b : N) :
  (b < 256)%N -> forallb uri_safe (percent_octet b) = true.
Proof.
  intros H. unfold percent_octet. cbn [forallb].
  rewrite !hex_digit_safe.
  - reflexivity.
  - apply N.mod_lt. discriminate.
  - apply N.Div0.div_lt_upper_bound. exact H.
Qed.

Lemma utf8_octets_bytes (cp : N) :
  (cp < 0x110000)%N -> Forall (fun b => (b < 256)%N) (utf8_octets cp).
Proof.
  intros H. unfold utf8_octets.
  pose proof (N.mod_lt cp 0x40) as M0.
  pose proof (N.mod_lt (cp / 0x40) 0x40) as M1.
  pose proof (N.mod_lt (cp / 0x1000) 0x40) as M2.
  destruct (cp <? 0x80)%N eqn:E1; [apply N.ltb_lt in E1 |].
  { repeat constructor. lia. }
  destruct (cp <? 0x800)%N eqn:E2; [apply N.ltb_lt in E2 |].
  { assert (cp / 0x40 < 32)%N by (apply N.Div0.div_lt_upper_bound; lia).
    repeat constructor; lia. }
  destruct (cp <? 0x10000)%N eqn:E3; [apply N.ltb_lt in E3 |].
  { assert (cp / 0x1000 < 16)%N by (apply N.Div0.div_lt_upper_bound; lia).
    repeat constructor; lia. }
  assert (cp / 0x40000 < 5)%N by (apply N.Div0.div_lt_upper_bound; lia).
  repeat constructor; lia.
Qed.

Lemma escape_code_point_safe (cp : N) :
  (cp < 0x110000)%N -> forallb uri_safe (escape_code_point cp) = true.
Proof.
  intros H. unfold escape_code_point.
  pose proof (utf8_octets_bytes cp H) as B.
  induction B as [|b l Hb _ IH]; [reflexivity |].
  cbn [flat_map]. rewrite forallb_app, IH, percent_octet_safe by assumption.
  reflexivity.
Qed.

Lemma surrogate_pair_code_point (c d : N) :
  is_high_surrogate c = true -> is_low_surrogate d = true ->
  (0x10000 + (c - 0xD800) * 0x400 + (d - 0xDC00) < 0x110000)%N.
Proof.
  unfold is_high_surrogate, is_low_surrogate.
  rewrite !andb_true_iff, !N.leb_le. lia.
Qed.

Lemma encode_cons (c : N) (rest : jsstring) :
  encodeURIComponent (c :: rest) =
  if uri_unescaped c then
    (r <- encodeURIComponent rest ;; Normal (c :: r))
  else if is_low_surrogate c then Throw URIError
  else if is_high_surrogate c then
    match rest with
    | d :: rest' =>
        if is_low_surrogate d then
          (r <- encodeURIComponent rest' ;;
           Normal (escape_code_point
                     (0x10000 + (c - 0xD800) * 0x400 + (d - 0xDC00))%N ++ r))
        else Throw URIError
    | [] => Throw URIError
    end
  else
    (r <- encodeURIComponent rest ;; Normal (escape_code_point c ++ r)).
Proof. reflexivity. Qed.

Lemma encode_safe (s e : jsstring) :
  Forall (fun c => (c < 0x10000)%N) s ->
  encodeURIComponent s = Normal e -> forallb uri_safe e = true.
Proof.
  revert e. pattern s. apply encode_ind; clear s.
  - intros e _ H. injection H as <-. reflexivity.
  - intros c rest IH1 IH2 e B. inversion B as [|? ? Bc Brest]; subst.
    rewrite encode_cons.
    destruct (uri_unescaped c) eqn:U.
    { destruct (encodeURIComponent rest) as [r |]; simpl; [| discriminate].
      intros H. injection H as <-. cbn [forallb].
      unfold uri_safe at 1. rewrite U. simpl. apply IH1; [assumption | reflexivity]. }
    destruct (is_low_surrogate c); [discriminate |].
    destruct (is_high_surrogate c) eqn:Hh.
    + destruct rest as [|d rest']; [discriminate |].
      destruct (is_low_surrogate d) eqn:Hl; [| discriminate].
      destruct (encodeURIComponent rest') as [r |] eqn:E; unfold cbind;
        [| discriminate].
      intros H. injection H as <-.
      inversion Brest as [|? ? Bd Brest']; subst.
      rewrite forallb_app, (IH2 d rest' eq_refl r Brest' E), andb_true_r.
      apply escape_code_point_safe.
      exact (surrogate_pair_code_point c d Hh Hl).
    + destruct (encodeURIComponent rest) as [r |]; simpl; [| discriminate].
      intros H. injection H as <-.
      rewrite forallb_app, (IH1 r Brest eq_refl), andb_true_r.
      apply escape_code_point_safe. lia.
Qed.

End Encoding.

(** ** Shape of the scraped lines *)

Section ScrapeShape.

Variable doc : Document.

Lemma clean_length (out : list jsstring) : length (clean out) <= length out.
Proof.
  unfold clean. apply Nat.le_trans with (length (array_from_set out)).
  - apply filter_length_le.
  - apply NoDup_incl_length; [apply array_from_set_NoDup |].
    intros x Hx. apply array_from_set_In. assumption.
Qed.

Lemma header_not_text : ~ starts_with_text examples_header.
Proof. unfold starts_with_text, examples_header. discriminate. Qed.

Lemma collect_texts (selectors : list jsstring) :
  Forall starts_with_text (collect doc selectors).
Proof.
  apply Forall_forall. intros l Hl. unfold collect in Hl.
  apply in_flat_map in Hl. destruct Hl as (sel & _ & Hl).
  apply filter_In in Hl. destruct Hl as [Hl _].
  apply in_map_iff in Hl. destruct Hl as (x & <- & _). apply trim_head.
Qed.

Lemma Forall_firstn {A : Type} (P : A -> Prop) (n : nat) (l : list A) :
  Forall P l -> Forall P (firstn n l).
Proof.
  rewrite !Forall_forall. intros H x Hx. apply H. eapply In_firstn; eassumption.
Qed.

(** The lines pushed before the examples section (source lines 111-127). *)
Lemma scrape_lines_parts :
  exists out0,
    scrape_lines doc
    = clean (out0 ++ match collect doc exampleSelectors with
                     | [] => []
                     | _ :: _ => examples_header
                                 :: firstn 8 (collect doc exampleSelectors)
                     end)
    /\ length out0 <= 12
    /\ Forall starts_with_text out0.
Proof.
  unfold scrape_lines.
  set (results := with_meta_description doc (collect doc meaningSelectors)).
  exists (match results with
          | _ :: _ => firstn 12 results
          | [] => if nonempty (bodyText doc)
                  then [substring0 800 (bodyText doc)] else []
          end).
  split; [| split].
  - destruct (collect doc exampleSelectors); [| reflexivity].
    rewrite app_nil_r. reflexivity.
  - destruct results; [destruct (nonempty (bodyText doc)); simpl; lia |].
    rewrite length_firstn. apply Nat.le_min_l.
  - assert (Forall starts_with_text results) as Hres.
    { unfold results, with_meta_description.
      pose proof (collect_texts meaningSelectors) as Hc.
      destruct (collect doc meaningSelectors); [| exact Hc].
      destruct (querySelector_content doc metaSelector) as [content |];
        [| constructor].
      destruct (nonempty content); repeat constructor. apply trim_head. }
    destruct results as [|x r]; [| apply Forall_firstn; assumption].
    destruct (nonempty (bodyText doc)); repeat constructor.
    apply firstn_head. unfold bodyText.
    destruct (body_textContent doc) as [t |]; [| exact I].
    destruct (nonempty t); [| exact I].
    apply collapse_head, trim_head.
Qed.

Lemma scrape_lines_shape :
  exists pre post,
    scrape_lines doc = pre ++ post
    /\ length pre <= 12
    /\ ~ In examples_header pre
    /\ ((collect doc exampleSelectors = [] /\ post = [])
        \/ (collect doc exampleSelectors <> []
            /\ exists post', post = examples_header :: post'
                             /\ length post' <= 8
                             /\ (forall l, In l post' ->
                                   In l (firstn 8 (collect doc exampleSelectors))))).
Proof.
  destruct scrape_lines_parts as (out0 & E & Hlen & Htext).
  assert (~ In examples_header out0) as Hnot.
  { intros Hin. rewrite Forall_forall in Htext.
    exact (header_not_text (Htext _ Hin)). }
  destruct (collect doc exampleSelectors) as [|x exs] eqn:Ex.
  - exists (clean out0), []. rewrite app_nil_r in *.
    split; [exact E |]. split; [| split].
    + apply Nat.le_trans with (length out0); [apply clean_length | exact Hlen].
    + intros Hin. apply clean_In in Hin. tauto.
    + left. split; reflexivity.
  - destruct (clean_first out0 (firstn 8 (x :: exs)) examples_header Hnot)
      as (r2 & E2 & Hr2 & Hlen2); [discriminate |].
    exists (clean out0), (examples_header :: r2).
    split; [rewrite E; exact E2 |]. split; [| split].
    + apply Nat.le_trans with (length out0); [apply clean_length | exact Hlen].
    + intros Hin. apply clean_In in Hin. tauto.
    + right. split; [discriminate |].
      exists r2. split; [reflexivity |]. split.
      * apply Nat.le_trans with (length (firstn 8 (x :: exs))); [exact Hlen2 |].
        rewrite length_firstn. apply Nat.le_min_l.
      * intros l Hl. apply Hr2. assumption.
Qed.

End ScrapeShape.

(** ** The answer of the script *)

Section Answer.

Variable host : Host.

Lemma run_findWord_cases (word : jsval) :
  (exists lines t, run_findWord host word = Normal (Fulfilled lines, t))
  \/ (exists w, word = JStr w /\ encodeURIComponent (trim w) = Throw URIError
                /\ run_findWord host word = Throw URIError).
Proof.
  destruct (findWord host word) as [p | e] eqn:F.
  - left. destruct (findWord_fulfils host word p F) as (lines & t & R).
    exists lines, t. unfold run_findWord. rewrite F. simpl. rewrite R. reflexivity.
  - right. destruct word as [| | b | r | w | items | props]; try discriminate.
    exists w. unfold run_findWord. unfold findWord in *. simpl in *.
    destruct (nonempty w); simpl in *; [| discriminate].
    destruct (encodeURIComponent (trim w)) as [enc | e'] eqn:E; [discriminate |].
    rewrite (encode_throws_URIError _ _ E). simpl. auto.
Qed.

Lemma main_fulfilled (word : jsval) (lines : list jsstring) (t : Trace) :
  run_findWord host word = Normal (Fulfilled lines, t) ->
  main host word = (match lines with
                    | [] => no_result_found
                    | _ :: _ => join (line_break ++ line_break) lines
                    end, t).
Proof.
  intros R. unfold main. rewrite (getDefinition_joins host word lines t R).
  reflexivity.
Qed.

Lemma main_thrown (word : jsval) (e : JsError) :
  run_findWord host word = Throw e -> main host word = (lit "Error", []).
Proof.
  unfold run_findWord, main, getDefinition.
  destruct (findWord host word); simpl; [discriminate | reflexivity].
Qed.

Lemma join_nonempty (sep x : jsstring) (r : list jsstring) :
  x <> [] -> join sep (x :: r) <> [].
Proof.
  intros Hx. destruct r; simpl; [assumption |].
  destruct x; [congruence | discriminate].
Qed.

(** The requests of one call on a string that encodes. *)
Lemma main_trace (w encoded : jsstring) :
  nonempty w = true ->
  encodeURIComponent (trim w) = Normal encoded ->
  snd (main host (JStr w)) = [apiUrl encoded]
  \/ snd (main host (JStr w)) = [apiUrl encoded; pageUrl encoded].
Proof.
  intros Hw E. pose proof (findWord_eq host w encoded Hw E) as R.
  pose proof (structured_lookup_trace host encoded []) as T.
  destruct (structured_lookup host encoded []) as [[lines | e] t]; simpl in T;
    subst t.
  - left. rewrite (main_fulfilled _ _ _ R). reflexivity.
  - right. rewrite (fallback_eq host _ _ _ E) in R.
    rewrite (main_fulfilled _ _ _ R). reflexivity.
Qed.


(** X2: the string handed to [sendResponse] is never empty: it is
    "Error", "No result found", or lines of which the first is not
    empty. *)
Theorem answer_is_never_empty (selectedText : jsval) :
  fst (main host selectedText) <> [].
Proof.
  destruct (run_findWord_cases selectedText)
    as [(lines & t & R) | (w & _ & _ & R)].
  - rewrite (main_fulfilled _ _ _ R). simpl.
    destruct lines as [|x r]; [discriminate |].
    apply join_nonempty. intros ->.
    apply (proj2 (findWord_lines_clean host _ _ _ R)). left. reflexivity.
  - rewrite (main_thrown _ _ R). discriminate.
Qed.


(** X4: on a selection of UTF-16 code units, every URL requested is
    the JSON endpoint or the page address completed with a phrase made
    of unreserved characters and percent signs only: the selection
    cannot add a query parameter, a path segment or a fragment. *)
Theorem requested_urls_are_safe (w : jsstring) (url : jsstring) :
  Forall (fun c => (c < 0x10000)%N) w ->
  In url (snd (main host (JStr w))) ->
  exists phrase,
    forallb uri_safe phrase = true
    /\ (url = apiUrl phrase \/ url = pageUrl phrase).
Proof.
  intros B Hin.
  destruct (nonempty w) eqn:Hw.
  - destruct (encodeURIComponent (trim w)) as [encoded | e] eqn:E.
    + assert (forallb uri_safe encoded = true) as Hsafe.
      { apply (encode_safe (trim w)); [| exact E].
        apply Forall_forall. intros c Hc. apply trim_In in Hc.
        rewrite Forall_forall in B. apply B. assumption. }
      exists encoded. split; [exact Hsafe |].
      destruct (main_trace w encoded Hw E) as [T | T]; rewrite T in Hin;
        simpl in Hin; intuition congruence.
    + rewrite (main_thrown (JStr w) e) in Hin; [contradiction |].
      unfold run_findWord, findWord. simpl. rewrite Hw, E. reflexivity.
  - rewrite (main_fulfilled (JStr w) [no_word_provided] []) in Hin;
      [contradiction |].
    apply findWord_guard. simpl. rewrite Hw. reflexivity.
Qed.

(** X5: white space around a non-empty selection changes neither the
    requests nor the answer. *)
Theorem surrounding_white_space_is_ignored (pre w post : jsstring) :
  nonempty w = true ->
  all_white_space pre = true -> all_white_space post = true ->
  main host (JStr (pre ++ w ++ post)) = main host (JStr w).
Proof.
  intros Hw Hpre Hpost.
  assert (nonempty (pre ++ w ++ post) = true) as Hw'.
  { destruct pre; [| reflexivity]. destruct w; [discriminate | reflexivity]. }
  unfold main, getDefinition, findWord. cbn [truthy]. rewrite Hw, Hw'.
  cbn [negb]. rewrite (trim_surrounded pre w post Hpre Hpost). reflexivity.
Qed.

End Answer.


Lemma requested_urls_are_safe_witness :
  exists phrase,
    forallb uri_safe phrase = true
    /\ (apiUrl (lit "a%26b") = apiUrl phrase
        \/ apiUrl (lit "a%26b") = pageUrl phrase).
Proof.
  apply (requested_urls_are_safe Samples.offline (lit " a&b ")
                                 (apiUrl (lit "a%26b"))).
  - repeat constructor.
  - left. reflexivity.
Defined.

Lemma surrounding_white_space_is_ignored_witness :
  main (Samples.api_only Samples.one_meaning)
       (JStr (Samples.one_space ++ lit "a" ++ Samples.one_space))
  = main (Samples.api_only Samples.one_meaning) (JStr (lit "a")).
Proof.
  apply (surrounding_white_space_is_ignored
           (Samples.api_only Samples.one_meaning)
           Samples.one_space (lit "a") Samples.one_space);
    reflexivity.
Defined.

(** ** Units that make the extraction throw *)

Lemma forEach_throws {A S : Type} (f : S -> A -> completion S) (xs : list A)
      (x : A) :
  In x xs -> (forall s, exists e, f s x = Throw e) ->
  forall s, exists e, forEach f xs s = Throw e.
Proof.
  intros Hx Hf. induction xs as [|y r IH]; [contradiction |].
  intros s. simpl. destruct Hx as [-> | Hx].
  - destruct (Hf s) as [e ->]. simpl. eauto.
  - destruct (f s y) as [s' | e]; simpl; [apply IH; assumption | eauto].
Qed.

Lemma malformed_unit_throws (item : jsval) (out : list jsstring) :
  malformed_unit item -> exists e, on_item out item = Throw e.
Proof.
  intros [-> | mv Hm Ht Hna | ms Hm Hin]; unfold on_item.
  - simpl. eauto.
  - rewrite Hm. simpl. rewrite Ht.
    destruct mv as [| | | | | ms |]; try (eexists; reflexivity).
    exfalso. apply (Hna ms). reflexivity.
  - rewrite Hm. simpl.
    assert (Nat.eqb (length ms) 0 = false) as ->
        by (destruct ms; [contradiction | reflexivity]).
    simpl. apply forEach_throws with (x := JNull); [assumption |].
    intros s. exists TypeError. reflexivity.
Qed.

(** X6: when a unit of [tuc] is null, has a truthy [meanings] with a
    truthy length that is not an array, or holds a null meaning, the
    lines extracted from the other units and from the examples are
    discarded and the page is requested: the result is the one of the
    scrape. *)
Theorem malformed_unit_discards_structured_lines
        (host : Host) (w encoded : jsstring) (j : jsval) (items : list jsval)
        (item : jsval) :
  nonempty w = true ->
  encodeURIComponent (trim w) = Normal encoded ->
  api_answers host encoded j ->
  get j key_tuc = Normal (JArr items) -> In item items -> malformed_unit item ->
  run_findWord host (JStr w) = Normal (fallback host (trim w) [apiUrl encoded])
  /\ snd (fallback host (trim w) [apiUrl encoded])
     = [apiUrl encoded; pageUrl encoded].
Proof.
  intros Hw E (r & N & Hok & Hj) Ht Hin Hbad.
  assert (exists e, on_api_json j = Throw e) as [e He].
  { unfold on_api_json, api_lines, tuc_lines.
    rewrite (get_array_truthy _ _ _ Ht), Ht. simpl.
    assert (Nat.ltb 0 (length items) = true) as ->
        by (destruct items; [contradiction | reflexivity]).
    destruct (forEach_throws on_item items item Hin
                (fun s => malformed_unit_throws item s Hbad) []) as [e ->].
    simpl. eauto. }
  rewrite (findWord_eq host w encoded Hw E), structured_lookup_eq, N, Hok, Hj, He.
  simpl. split; [reflexivity |].
  rewrite (fallback_eq host _ _ _ E). reflexivity.
Qed.

Lemma malformed_unit_discards_structured_lines_witness :
  run_findWord (Samples.api_only Samples.null_unit) (JStr (lit "a"))
  = Normal (fallback (Samples.api_only Samples.null_unit) (trim (lit "a"))
                     [apiUrl (lit "a")])
  /\ snd (fallback (Samples.api_only Samples.null_unit) (trim (lit "a"))
                   [apiUrl (lit "a")])
     = [apiUrl (lit "a"); pageUrl (lit "a")].
Proof.
  apply (malformed_unit_discards_structured_lines
           (Samples.api_only Samples.null_unit) (lit "a") (lit "a")
           Samples.null_unit
           [JObj [(key_meanings, JArr [JObj [(key_text, Samples.text_A)]])]; JNull]
           JNull eq_refl eq_refl
           (api_only_answers Samples.null_unit (lit "a")) eq_refl).
  - right. left. reflexivity.
  - apply unit_is_null. reflexivity.
Defined.

(** ** Every extracted line has a source *)

Lemma forEach_appends_in {A : Type}
      (f : list jsstring -> A -> completion (list jsstring))
      (Q : jsstring -> Prop) (xs : list A) :
  (forall x, In x xs -> forall out out',
        f out x = Normal out' ->
        exists added, out' = out ++ added /\ Forall Q added) ->
  forall out out', forEach f xs out = Normal out' ->
                   exists added, out' = out ++ added /\ Forall Q added.
Proof.
  induction xs as [|x r IH]; intros Hf out out' H; simpl in H.
  - injection H as <-. exists []. rewrite app_nil_r. split; constructor.
  - destruct (f out x) as [mid |] eqn:Fx; simpl in H; [| discriminate].
    destruct (Hf x (or_introl eq_refl) _ _ Fx) as (a1 & -> & Q1).
    destruct (IH (fun y Hy => Hf y (or_intror Hy)) _ _ H) as (a2 & -> & Q2).
    exists (a1 ++ a2). rewrite app_assoc. split; [reflexivity |].
    apply Forall_app; split; assumption.
Qed.

Lemma on_item_sound (item : jsval) (out out' : list jsstring) :
  on_item out item = Normal out' ->
  exists added, out' = out ++ added /\ Forall (emits item) added.
Proof.
  unfold on_item.
  destruct (get item key_meanings) as [mv |] eqn:Hm; simpl; [| discriminate].
  assert (Normal out = Normal out' ->
          exists added, out' = out ++ added /\ Forall (emits item) added)
    as Hnone.
  { intros H. injection H as <-. exists []. rewrite app_nil_r.
    split; constructor. }
  destruct (truthy mv && truthy_length mv) eqn:Hlen.
  - destruct mv as [| | | | | ms |]; try discriminate.
    apply forEach_appends_in. intros m Hin o o'.
    unfold on_meaning.
    destruct (get m key_text) as [t |] eqn:Ht; simpl; [| discriminate].
    destruct (truthy t) eqn:Htr.
    + intros H. apply push_arrow_appends in H. destruct H as (s & Hs & ->).
      exists [arrow ++ s]. split; [reflexivity |].
      constructor; [| constructor].
      eapply emits_meaning; try eassumption. reflexivity.
    + intros H. injection H as <-. exists []. rewrite app_nil_r.
      split; constructor.
  - destruct (get item key_phrase) as [p |] eqn:Hp; simpl; [| discriminate].
    destruct (truthy p) eqn:Hpt; [| assumption].
    destruct (get p key_text) as [t |] eqn:Ht; simpl; [| discriminate].
    destruct (truthy t) eqn:Htr; [| assumption].
    intros H. apply push_arrow_appends in H. destruct H as (s & Hs & ->).
    exists [arrow ++ s]. split; [reflexivity |].
    constructor; [| constructor].
    eapply emits_phrase; try eassumption. reflexivity.
Qed.

Lemma example_lines_cases (j : jsval) (out1 out : list jsstring) :
  example_lines j out1 = Normal out ->
  out = out1
  \/ exists exs, get j key_examples = Normal (JArr exs) /\ exs <> [].
Proof.
  unfold example_lines.
  assert (Normal out1 = Normal out ->
          out = out1
          \/ exists exs, get j key_examples = Normal (JArr exs) /\ exs <> [])
    as Hnone.
  { intros H. injection H as <-. left. reflexivity. }
  destruct (truthy j); [| assumption].
  destruct (get j key_examples) as [exs |] eqn:He; simpl; [| discriminate].
  destruct exs as [| | | | | items |]; try assumption.
  destruct items as [|x items]; [assumption |].
  intros _. right. exists (x :: items). split; [reflexivity | discriminate].
Qed.

(** X7: every line the structured extraction yields has a source in the
    response: it is emitted by a unit of [tuc] (the arrow and the text
    of one of its meanings, or the arrow and its phrase text when its
    meanings are absent or empty, never both), or it is the examples
    header, or it is the rendering of one of the first six examples. *)
Theorem extracted_lines_have_a_source (j : jsval) (out : list jsstring)
        (l : jsstring) :
  api_lines j = Normal out -> In l out ->
  (exists items item,
      get j key_tuc = Normal (JArr items) /\ In item items /\ emits item l)
  \/ (exists exs,
         get j key_examples = Normal (JArr exs) /\ exs <> []
         /\ (l = examples_header
             \/ exists ex source target,
                 In ex (firstn 6 exs)
                 /\ has_text ex key_first source
                 /\ has_text ex key_second target
                 /\ l = rendered_example source target)).
Proof.
  intros L Hin.
  destruct (api_lines_split j out L) as (out1 & L1 & L2).
  assert (forall x, In x out1 ->
                    exists items item,
                      get j key_tuc = Normal (JArr items)
                      /\ In item items /\ emits item x) as Htuc.
  { unfold tuc_lines in L1.
    destruct (truthy j); [| injection L1 as <-; contradiction].
    destruct (get j key_tuc) as [tuc |] eqn:Ht; simpl in L1; [| discriminate].
    destruct tuc as [| | | | | items |];
      try (injection L1 as <-; contradiction).
    destruct (Nat.ltb 0 (length items)); [| injection L1 as <-; contradiction].
    destruct (forEach_appends_in on_item
                (fun x => exists item, In item items /\ emits item x) items)
      with (out := @nil jsstring) (out' := out1) as (added & -> & Ha).
    - intros item Hitem o o' H.
      destruct (on_item_sound item o o' H) as (added & -> & Ha).
      exists added. split; [reflexivity |].
      rewrite Forall_forall in *. intros x Hx. exists item. auto.
    - exact L1.
    - intros x Hx. rewrite Forall_forall in Ha.
      destruct (Ha x Hx) as (item & Hitem & Hem).
      exists items, item. auto. }
  destruct (example_lines_cases j out1 out L2) as [-> | (exs & He & Hne)].
  - left. apply Htuc. assumption.
  - destruct (example_lines_section j exs out1 out He Hne L2)
      as (rendered & -> & F).
    apply in_app_or in Hin. destruct Hin as [Hin | [<- | Hin]].
    + left. apply Htuc. assumption.
    + right. exists exs. auto.
    + right. exists exs. split; [assumption |]. split; [assumption |]. right.
      destruct (Forall2_In_right _ _ _ l F Hin) as (ex & Hex & Hline).
      destruct (example_line_texts ex l Hline)
        as (source & target & H1 & H2 & ->).
      exists ex, source, target. auto.
Qed.

Lemma extracted_lines_have_a_source_witness :
  (exists items item,
      get Samples.one_meaning key_tuc = Normal (JArr items)
      /\ In item items /\ emits item (arrow ++ lit "A"))
  \/ (exists exs,
         get Samples.one_meaning key_examples = Normal (JArr exs) /\ exs <> []
         /\ (arrow ++ lit "A" = examples_header
             \/ exists ex source target,
                 In ex (firstn 6 exs)
                 /\ has_text ex key_first source
                 /\ has_text ex key_second target
                 /\ arrow ++ lit "A" = rendered_example source target)).
Proof.
  apply (extracted_lines_have_a_source Samples.one_meaning [arrow ++ lit "A"]).
  - reflexivity.
  - left. reflexivity.
Defined.

(** ** The examples header *)

(** X8: when the extraction yields at least one line, the result of the
    structured lookup holds the examples header exactly when the
    response carries a non-empty [examples] array. *)
Theorem structured_header_iff_examples
        (host : Host) (w encoded : jsstring) (j : jsval) (out : list jsstring) :
  nonempty w = true ->
  encodeURIComponent (trim w) = Normal encoded ->
  api_answers host encoded j ->
  api_lines j = Normal out -> out <> [] ->
  exists lines,
    run_findWord host (JStr w) = Normal (Fulfilled lines, [apiUrl encoded])
    /\ (In examples_header lines
        <-> exists exs, get j key_examples = Normal (JArr exs) /\ exs <> []).
Proof.
  intros Hw E A L Hne. exists (clean out).
  split; [exact (structured_success host w encoded j Hw E A out L Hne) |].
  destruct (api_lines_split j out L) as (out1 & L1 & L2).
  split.
  - intros Hin. apply clean_In in Hin. destruct Hin as [Hin _].
    destruct (example_lines_cases j out1 out L2) as [-> | H]; [| exact H].
    exfalso. pose proof (tuc_lines_arrows j out1 L1) as Ha.
    rewrite Forall_forall in Ha.
    exact (arrow_line_not_header _ (Ha _ Hin) eq_refl).
  - intros (exs & He & Hex).
    destruct (example_lines_section j exs out1 out He Hex L2)
      as (rendered & -> & _).
    apply clean_In. split; [| discriminate].
    apply in_or_app. right. left. reflexivity.
Qed.

Lemma structured_header_iff_examples_witness :
  exists lines,
    run_findWord (Samples.api_only Samples.one_meaning) (JStr (lit "a"))
    = Normal (Fulfilled lines, [apiUrl (lit "a")])
    /\ (In examples_header lines
        <-> exists exs, get Samples.one_meaning key_examples = Normal (JArr exs)
                        /\ exs <> []).
Proof.
  apply (structured_header_iff_examples
           (Samples.api_only Samples.one_meaning) (lit "a") (lit "a")
           Samples.one_meaning [arrow ++ lit "A"] eq_refl eq_refl
           (api_only_answers Samples.one_meaning (lit "a")) eq_refl).
  discriminate.
Defined.

(** X9: the scraped result holds the examples header exactly when an
    example selector yields a text: no meaning, description or body
    line can be mistaken for it, since they never begin with white
    space. *)
Theorem scrape_header_iff_examples (doc : Document) :
  In examples_header (scrape_lines doc) <-> collect doc exampleSelectors <> [].
Proof.
  destruct (scrape_lines_shape doc)
    as (pre & post & -> & _ & Hnot & [[Ex ->] | (Ex & post' & -> & _)]).
  - rewrite app_nil_r, Ex. tauto.
  - split; [intros _; exact Ex |].
    intros _. apply in_or_app. right. left. reflexivity.
Qed.

(** ** Bounds of the scraped result *)

(** X10: the scraped result holds at most twelve lines before the
    examples header and at most eight after it, hence at most
    twenty-one lines. *)
Theorem scrape_lines_bounds (doc : Document) :
  length (scrape_lines doc) <= 21
  /\ exists pre post,
      scrape_lines doc = pre ++ post
      /\ length pre <= 12
      /\ ~ In examples_header pre
      /\ (post = []
          \/ exists post', post = examples_header :: post'
                           /\ length post' <= 8).
Proof.
  destruct (scrape_lines_shape doc)
    as (pre & post & E & Hpre & Hnot & Hpost).
  assert (post = []
          \/ exists post', post = examples_header :: post' /\ length post' <= 8)
    as Hpost'.
  { destruct Hpost as [[_ ->] | (_ & post' & -> & Hlen & _)];
      [left; reflexivity | right; exists post'; auto]. }
  split.
  - rewrite E, length_app.
    destruct Hpost' as [-> | (post' & -> & Hlen)]; simpl; lia.
  - exists pre, post. auto.
Qed.

(** X11: the line taken from the body text (source lines 125-126) has
    at most 800 code units, does not begin with white space, and holds
    no white space other than single spaces between two other units. *)
Theorem body_line_is_single_spaced (doc : Document) :
  length (substring0 800 (bodyText doc)) <= 800
  /\ single_spaced true (substring0 800 (bodyText doc)) = true.
Proof.
  unfold substring0. split.
  - rewrite length_firstn. apply Nat.le_min_l.
  - apply single_spaced_firstn. unfold bodyText.
    destruct (body_textContent doc) as [t |]; [| reflexivity].
    destruct (nonempty t); [| reflexivity].
    apply single_spaced_after_text.
    + apply collapse_head, trim_head.
    + apply collapse_single_spaced.
Qed.

(** ** Precedence of the sources of the scrape *)

(** X12: when no meaning selector yields a text and the page has a
    description tag whose trimmed content is not empty, that content is
    the first line of the scraped result, whatever the body text; it is
    the only line when no example selector yields a text, and is
    otherwise followed by the header and example lines only. *)
Theorem description_precedes_body_text (doc : Document) (content : jsstring) :
  collect doc meaningSelectors = [] ->
  querySelector_content doc metaSelector = Some content ->
  trim content <> [] ->
  exists rest,
    scrape_lines doc = trim content :: rest
    /\ (collect doc exampleSelectors = [] -> rest = [])
    /\ (forall l, In l rest ->
                  l = examples_header
                  \/ In l (firstn 8 (collect doc exampleSelectors))).
Proof.
  intros Hsel Hmeta Hline.
  assert (nonempty content = true) as Hc.
  { destruct content; [exfalso; apply Hline; reflexivity | reflexivity]. }
  set (section := match collect doc exampleSelectors with
                  | [] => []
                  | _ :: _ => [examples_header]
                              ++ firstn 8 (collect doc exampleSelectors)
                  end).
  assert (scrape_lines doc = clean ([] ++ trim content :: section)) as ->.
  { unfold scrape_lines, section. rewrite Hsel. unfold with_meta_description.
    rewrite Hmeta, Hc. destruct (collect doc exampleSelectors); reflexivity. }
  destruct (clean_first [] section (trim content) (fun H => H) Hline)
    as (rest & E & Hrest & _).
  exists rest. split; [exact E |]. split.
  - intros Hnone. unfold section in Hrest. rewrite Hnone in Hrest.
    destruct rest as [|l rest]; [reflexivity |].
    destruct (Hrest l (or_introl eq_refl)) as [[] _].
  - intros l Hl. apply Hrest in Hl. destruct Hl as [Hl _].
    unfold section in Hl. destruct (collect doc exampleSelectors); [contradiction |].
    destruct Hl as [<- | Hl]; [left; reflexivity | right; assumption].
Qed.

Lemma description_precedes_body_text_witness :
  exists rest,
    scrape_lines (Samples.described_page (lit " A word ") (lit "body"))
    = lit "A word" :: rest
    /\ (collect (Samples.described_page (lit " A word ") (lit "body"))
                exampleSelectors = [] -> rest = [])
    /\ (forall l, In l rest ->
                  l = examples_header
                  \/ In l (firstn 8 (collect (Samples.described_page
                                                (lit " A word ") (lit "body"))
                                             exampleSelectors))).
Proof.
  apply (description_precedes_body_text
           (Samples.described_page (lit " A word ") (lit "body"))
           (lit " A word ")).
  - reflexivity.
  - reflexivity.
  - discriminate.
Defined.

(** X13: when the structured lookup has failed and the page has no text
    under the meaning and example selectors but a description tag whose
    content is white space only, the script answers "No result found",
    whatever the body text: the blank description counts as a result
    and keeps the body text from being used. *)
Theorem blank_description_hides_body_text
        (host : Host) (w encoded : jsstring) (doc : Document)
        (content : jsstring) :
  nonempty w = true ->
  encodeURIComponent (trim w) = Normal encoded ->
  structured_fails host encoded ->
  page_answers host [apiUrl encoded] encoded doc ->
  collect doc meaningSelectors = [] ->
  collect doc exampleSelectors = [] ->
  querySelector_content doc metaSelector = Some content ->
  nonempty content = true -> all_white_space content = true ->
  main host (JStr w) = (no_result_found, [apiUrl encoded; pageUrl encoded]).
Proof.
  intros Hw E Hfail (r & html & N & Hok & Ht & Hp) Hsel Hex Hmeta Hc Hws.
  assert (scrape_lines doc = []) as Hlines.
  { unfold scrape_lines. rewrite Hsel, Hex. unfold with_meta_description.
    rewrite Hmeta, Hc, (trim_all_white_space content Hws). reflexivity. }
  apply structured_fails_iff in Hfail. destruct Hfail as [e He].
  pose proof (findWord_eq host w encoded Hw E) as R.
  rewrite He, (fallback_eq host _ _ _ E), scrape_eq, N, Hok, Ht, Hp in R.
  simpl in R. rewrite Hlines in R.
  rewrite (main_fulfilled host _ _ _ R). reflexivity.
Qed.

Lemma blank_description_hides_body_text_witness :
  main (Samples.page_only
          (Samples.described_page Samples.one_space (lit "body text")))
       (JStr (lit "a"))
  = (no_result_found, [apiUrl (lit "a"); pageUrl (lit "a")]).
Proof.
  apply (blank_description_hides_body_text
           (Samples.page_only
              (Samples.described_page Samples.one_space (lit "body text")))
           (lit "a") (lit "a")
           (Samples.described_page Samples.one_space (lit "body text"))
           Samples.one_space eq_refl eq_refl
           (page_only_structured_fails _ (lit "a"))
           (page_only_answers _ (lit "a")));
    reflexivity.
Defined.

(** X14: when a meaning selector yields a text, neither the description
    tag nor the body text has any influence on the scraped result. *)
Theorem selectors_override_description_and_body (doc doc' : Document) :
  (forall sel, querySelectorAll doc sel = querySelectorAll doc' sel) ->
  collect doc meaningSelectors <> [] ->
  scrape_lines doc = scrape_lines doc'.
Proof.
  intros Hsame Hres.
  assert (forall sels, collect doc sels = collect doc' sels) as Hcollect.
  { intros sels. unfold collect. apply flat_map_ext. intros sel.
    rewrite Hsame. reflexivity. }
  unfold scrape_lines. rewrite <- !Hcollect.
  destruct (collect doc meaningSelectors); [congruence | reflexivity].
Qed.

(** X15: when the structured lookup has failed in any way (network
    error, status not ok whatever the body, body that is not JSON,
    extraction that throws or yields nothing) and the page is served and
    parsed, [findWord] resolves with the lines scraped from the page,
    after exactly the two requests. *)
Theorem scrape_result_after_structured_failure
        (host : Host) (w encoded : jsstring) (doc : Document) :
  nonempty w = true ->
  encodeURIComponent (trim w) = Normal encoded ->
  structured_fails host encoded ->
  page_answers host [apiUrl encoded] encoded doc ->
  run_findWord host (JStr w)
  = Normal (Fulfilled (scrape_lines doc), [apiUrl encoded; pageUrl encoded]).
Proof.
  intros Hw E Hfail (r & html & N & Hok & Ht & Hp).
  apply structured_fails_iff in Hfail. destruct Hfail as [e He].
  rewrite (findWord_eq host w encoded Hw E), He.
  rewrite (fallback_eq host _ _ _ E), scrape_eq, N, Hok, Ht, Hp. reflexivity.
Qed.

Lemma scrape_result_after_structured_failure_witness :
  run_findWord (Samples.page_only Samples.plain_page) (JStr (lit "a"))
  = Normal (Fulfilled (scrape_lines Samples.plain_page),
            [apiUrl (lit "a"); pageUrl (lit "a")]).
Proof.
  apply (scrape_result_after_structured_failure
           (Samples.page_only Samples.plain_page) (lit "a") (lit "a")
           Samples.plain_page eq_refl eq_refl
           (page_only_structured_fails Samples.plain_page (lit "a"))
           (page_only_answers Samples.plain_page (lit "a"))).
Defined.

Lemma selectors_override_description_and_body_witness :
  scrape_lines (Samples.meaning_page (lit "one") (lit "two"))
  = scrape_lines (Samples.meaning_page (lit "three") (lit "four")).
Proof.
  apply (selectors_override_description_and_body
           (Samples.meaning_page (lit "one") (lit "two"))
           (Samples.meaning_page (lit "three") (lit "four"))).
  - intros sel. reflexivity.
  - discriminate.
Defined.

(** X16: for a selection that is empty or is not a string, the script
    answers exactly "No word provided", with no separator added by the
    wrapper and without any request. *)
Theorem empty_selection_answer (host : Host) (selectedText : jsval) :
  selectedText = JStr [] \/ is_string selectedText = false ->
  main host selectedText = (no_word_provided, []).
Proof.
  intros H.
  rewrite (main_fulfilled host selectedText [no_word_provided] []);
    [reflexivity |].
  apply findWord_guard. destruct H as [-> | ->]; [reflexivity |].
  apply orb_true_r.
Qed.

Lemma empty_selection_answer_witness :
  main (Samples.api_only Samples.one_meaning) JUndefined
  = (no_word_provided, []).
Proof.
  apply (empty_selection_answer (Samples.api_only Samples.one_meaning) JUndefined).
  right. reflexivity.
Defined.
